(** * pytrack: the TRK track writer

    A shallow embedding of [src/pytrack/track.py] (class [Track], method
    [write_trk]) and of [generate_straight] from [src/pytrack/main.py],
    together with the properties of the TRK file layout.

    Python values are modelled as follows.
    - [int]   : [Z].
    - [float] : [spec_float] of the Standard Library, read as IEEE-754
                binary64.  NaN payloads are not represented.
    - [str]   : the list of its code points, each a [Z] in [0, 0x10FFFF].
                Lone surrogates are legal members of a [str].
    - [bytes], [bytearray] : [list byte].
    - exceptions : the type [exn]; a computation that can raise returns a
                [result].
    - the file system : a finite map from a file to its content.  A file
                is identified by the path that names it once the operating
                system has resolved it; [write_trk] is the method on a
                destination that is resolved and opens, [write_trk_io] is
                the method in an operating system environment [os], which
                decides what file a path names, whether [open] raises,
                and whether the bytes written to the open file are taken
                or a write, a flush or the close fails. *)

From Stdlib Require Import ZArith List Strings.Byte Strings.String Strings.Ascii.
From Stdlib Require Import Floats.SpecFloat.
From stdpp Require Import gmap list strings.

Local Open Scope Z_scope.

(** ** Exceptions and results *)

Inductive exn : Type :=
| ValueError (msg : string)
| UnicodeEncodeError
| OverflowError
| StructError
| OSError (kind : string).

Inductive result (A : Type) : Type :=
| Ok (a : A)
| Raise (e : exn).
Arguments Ok {A} a.
Arguments Raise {A} e.

Definition is_ok {A} (r : result A) : bool :=
  match r with Ok _ => true | Raise _ => false end.

Definition rbind {A B} (r : result A) (k : A -> result B) : result B :=
  match r with Ok a => k a | Raise e => Raise e end.

(** ** Bytes and integers *)

Definition byte_of_Z (z : Z) : byte :=
  match Byte.of_N (Z.to_N (z mod 256)) with
  | Some b => b
  | None => x00
  end.

Definition Z_of_byte (b : byte) : Z := Z.of_N (Byte.to_N b).

(** [len(x)] as a Python int. *)
Definition len {A} (l : list A) : Z := Z.of_nat (length l).

(** The [k] low-order base-256 digits of [n], least significant first. *)
Fixpoint le_bytes (k : nat) (n : Z) : list byte :=
  match k with
  | O => []
  | S k' => byte_of_Z (n mod 256) :: le_bytes k' (n / 256)
  end.

(** [n.to_bytes(k, byteorder='little', signed=False)]: raises
    [OverflowError] on a negative [n] and on an [n] that does not fit. *)
Definition to_bytes_little (n : Z) (k : nat) : result (list byte) :=
  if n <? 0 then Raise OverflowError
  else if 256 ^ Z.of_nat k <=? n then Raise OverflowError
  else Ok (le_bytes k n).

(** [int.from_bytes(b, byteorder='little')], the reader's side of
    [to_bytes_little]; used to state what a field decodes to. *)
Fixpoint from_bytes_little (b : list byte) : Z :=
  match b with
  | [] => 0
  | x :: b' => Z_of_byte x + 256 * from_bytes_little b'
  end.

(** ** Slices *)

(** Python's adjustment of a slice bound to a sequence of length [n]:
    a negative bound counts from the end, and the result is clamped to
    [0, n]. *)
Definition adjust_index (n : nat) (i : Z) : nat :=
  let i' := if i <? 0 then i + Z.of_nat n else i in
  Z.to_nat (Z.max 0 (Z.min (Z.of_nat n) i')).

(** [a[:j]] *)
Definition slice_to {A} (a : list A) (j : Z) : list A :=
  take (adjust_index (length a) j) a.

(** [a[i:j]] *)
Definition slice {A} (a : list A) (i j : Z) : list A :=
  let lo := adjust_index (length a) i in
  let hi := adjust_index (length a) j in
  drop lo (take hi a).

(** [a[i:j] = v] on a bytearray: the slice is replaced by [v], whatever
    the length of [v]. *)
Definition slice_assign {A} (a : list A) (i j : Z) (v : list A) : list A :=
  let lo := adjust_index (length a) i in
  let hi := Nat.max lo (adjust_index (length a) j) in
  take lo a ++ v ++ drop hi a.

(** [bytearray(n)] *)
Definition bytearray (n : nat) : list byte := replicate n x00.

(** ** Strings and UTF-8 *)

(** A [str] literal with ASCII characters only. *)
Definition str_lit (s : string) : list Z :=
  map (fun a => Z.of_N (N_of_ascii a)) (list_ascii_of_string s).

Definition is_surrogate (c : Z) : bool := (0xD800 <=? c) && (c <=? 0xDFFF).

Definition valid_code_point (c : Z) : Prop := 0 <= c < 0x110000.

(** A well-formed [str]: every element is a code point. *)
Definition wf_str (s : list Z) : Prop := Forall valid_code_point s.

(** The UTF-8 encoding of one code point.  A surrogate has none: this is
    where [str.encode('utf-8')] raises [UnicodeEncodeError].  Numbers
    outside the code point range are not members of any [str]; they are
    rejected as well. *)
Definition utf8_char (c : Z) : result (list byte) :=
  if c <? 0 then Raise UnicodeEncodeError
  else if c <? 0x80 then Ok [byte_of_Z c]
  else if c <? 0x800 then
    Ok [byte_of_Z (Z.lor 0xC0 (Z.shiftr c 6));
        byte_of_Z (Z.lor 0x80 (Z.land c 0x3F))]
  else if c <? 0x10000 then
    if is_surrogate c then Raise UnicodeEncodeError
    else
      Ok [byte_of_Z (Z.lor 0xE0 (Z.shiftr c 12));
          byte_of_Z (Z.lor 0x80 (Z.land (Z.shiftr c 6) 0x3F));
          byte_of_Z (Z.lor 0x80 (Z.land c 0x3F))]
  else if c <? 0x110000 then
    Ok [byte_of_Z (Z.lor 0xF0 (Z.shiftr c 18));
        byte_of_Z (Z.lor 0x80 (Z.land (Z.shiftr c 12) 0x3F));
        byte_of_Z (Z.lor 0x80 (Z.land (Z.shiftr c 6) 0x3F));
        byte_of_Z (Z.lor 0x80 (Z.land c 0x3F))]
  else Raise UnicodeEncodeError.

(** [s.encode('utf-8')] *)
Fixpoint encode_utf8 (s : list Z) : result (list byte) :=
  match s with
  | [] => Ok []
  | c :: s' =>
      rbind (utf8_char c) (fun b =>
      rbind (encode_utf8 s') (fun bs => Ok (b ++ bs)))
  end.

(** ** Numbers: Python [int] and [float] *)

Inductive pynum : Type :=
| PyInt (n : Z)
| PyFloat (x : spec_float).

Definition is_inf (x : spec_float) : bool :=
  match x with S754_infinity _ => true | _ => false end.

(** [float(n)] for an int [n]: the nearest binary64 value, ties to even. *)
Definition float_of_int (n : Z) : spec_float :=
  binary_normalize 53 1024 n 0 false.

(** The C conversion [(float)x] from binary64 to binary32: round to
    nearest, ties to even; a magnitude beyond the binary32 range becomes an
    infinity. *)
Definition float32_of_float (x : spec_float) : spec_float :=
  match x with
  | S754_finite s m e => binary_round 24 128 s m e
  | _ => x
  end.

Definition sign_bit (s : bool) : Z := if s then 0x80000000 else 0.

(** The 32-bit pattern of a binary32 value: sign, 8-bit biased exponent,
    23-bit fraction.  A finite value [m * 2^e] is subnormal when [m] has
    fewer than 24 bits.  [spec_float] has one NaN, given here the pattern
    of the positive quiet NaN; the conversion of a real NaN keeps its sign
    and payload, so of the bytes of a NaN only that they are a NaN pattern
    is meant. *)
Definition bits_of_float32 (y : spec_float) : Z :=
  match y with
  | S754_zero s => sign_bit s
  | S754_infinity s => sign_bit s + 0x7F800000
  | S754_nan => 0x7FC00000
  | S754_finite s m e =>
      if Z.pos m <? 2 ^ 23 then sign_bit s + Z.pos m
      else sign_bit s + (e + 150) * 2 ^ 23 + (Z.pos m - 2 ^ 23)
  end.

(** Packing a binary64 value as a little-endian binary32: a finite value
    that rounds to an infinity raises [OverflowError] ("float too large to
    pack with f format"). *)
Definition pack_float32 (x : spec_float) : result (list byte) :=
  let y := float32_of_float x in
  if is_inf y && negb (is_inf x) then Raise OverflowError
  else Ok (le_bytes 4 (bits_of_float32 y)).

(** The argument conversion of the struct module for the format [f]: a
    float is taken as it is, an int is converted with [float()], and an int
    too large for a float is refused. *)
Definition as_double (v : pynum) : result spec_float :=
  match v with
  | PyFloat x => Ok x
  | PyInt n =>
      let x := float_of_int n in
      if is_inf x then Raise StructError else Ok x
  end.

(** One [f] field of [struct.pack('<...')].  A float is refused with
    [OverflowError] when it is beyond the binary32 range.  For an int every
    refusal surfaces as [struct.error]: either the conversion to a float
    fails, or the value is beyond the binary32 range and the module
    replaces the [OverflowError] ("int too large to convert"). *)
Definition pack_f (v : pynum) : result (list byte) :=
  match v with
  | PyFloat x => pack_float32 x
  | PyInt n =>
      match rbind (as_double (PyInt n)) pack_float32 with
      | Ok b => Ok b
      | Raise _ => Raise StructError
      end
  end.

(** [struct.pack('<ff', x, y)] *)
Definition struct_pack_ff (x y : pynum) : result (list byte) :=
  rbind (pack_f x) (fun bx =>
  rbind (pack_f y) (fun by_ => Ok (bx ++ by_))).

(** ** Formatting with [:.0f] *)

Fixpoint digits_of_uint (u : Decimal.uint) : list Z :=
  match u with
  | Decimal.Nil => []
  | Decimal.D0 u' => 48 :: digits_of_uint u'
  | Decimal.D1 u' => 49 :: digits_of_uint u'
  | Decimal.D2 u' => 50 :: digits_of_uint u'
  | Decimal.D3 u' => 51 :: digits_of_uint u'
  | Decimal.D4 u' => 52 :: digits_of_uint u'
  | Decimal.D5 u' => 53 :: digits_of_uint u'
  | Decimal.D6 u' => 54 :: digits_of_uint u'
  | Decimal.D7 u' => 55 :: digits_of_uint u'
  | Decimal.D8 u' => 56 :: digits_of_uint u'
  | Decimal.D9 u' => 57 :: digits_of_uint u'
  end.

(** The decimal numeral of a natural number, as a [str]. *)
Definition decimal (n : Z) : list Z := digits_of_uint (N.to_uint (Z.to_N n)).

(** The integer nearest to [m * 2^e], ties to even. *)
Definition round_half_even (m : positive) (e : Z) : Z :=
  if 0 <=? e then Z.pos m * 2 ^ e
  else
    let d := 2 ^ (- e) in
    let q := Z.pos m / d in
    let r := Z.pos m mod d in
    match 2 * r ?= d with
    | Lt => q
    | Gt => q + 1
    | Eq => if Z.even q then q else q + 1
    end.

Definition sign_str (s : bool) : list Z := if s then str_lit "-" else [].

(** [format(x, '.0f')] for a float [x]. *)
Definition format_float_0f (x : spec_float) : list Z :=
  match x with
  | S754_nan => str_lit "nan"
  | S754_infinity s => sign_str s ++ str_lit "inf"
  | S754_zero s => sign_str s ++ str_lit "0"
  | S754_finite s m e => sign_str s ++ decimal (round_half_even m e)
  end.

(** [format(v, '.0f')]: an int is first converted with [float()], which
    raises [OverflowError] when the int is too large. *)
Definition format_0f (v : pynum) : result (list Z) :=
  match v with
  | PyFloat x => Ok (format_float_0f x)
  | PyInt n =>
      let x := float_of_int n in
      if is_inf x then Raise OverflowError else Ok (format_float_0f x)
  end.

(** ** The Track object and the world it lives in *)

Definition MAX_NODES : Z := 65535.

(** [class Track]: the two attributes set by [__init__]. *)
Record Track : Type := mkTrack {
  name : list Z;
  nodes : list (pynum * pynum)
}.

(** The state a call of [write_trk] runs in: the object bound to [self],
    whose attributes the method could rebind or mutate, and the file
    system. *)
Record world : Type := mkWorld {
  self : Track;
  files : gmap (list Z) (list byte)
}.

(** Computations that read and change the world and may raise.  The world
    is returned in both cases: what was written before an exception stays
    written. *)
Definition M (A : Type) : Type := world -> result A * world.

Definition ret {A} (a : A) : M A := fun w => (Ok a, w).

Definition raise {A} (e : exn) : M A := fun w => (Raise e, w).

Definition bind {A B} (m : M A) (k : A -> M B) : M B :=
  fun w =>
    match m w with
    | (Ok a, w') => k a w'
    | (Raise e, w') => (Raise e, w')
    end.

(** A pure operation that may raise. *)
Definition lift {A} (r : result A) : M A := fun w => (r, w).

Declare Scope py_scope.
Delimit Scope py_scope with py.
Notation "'do' x <- m ; k" := (bind m (fun x => k))
  (at level 10, x name, m at level 100, k at level 200) : py_scope.
Notation "'exec' m ; k" := (bind m (fun _ => k))
  (at level 10, m at level 100, k at level 200) : py_scope.
Local Open Scope py_scope.

(** [self.name] and [self.nodes] *)
Definition self_name : M (list Z) := fun w => (Ok (name (self w)), w).
Definition self_nodes : M (list (pynum * pynum)) :=
  fun w => (Ok (nodes (self w)), w).

(** [self.name = v] and [self.nodes = v] *)
Definition set_self_name (v : list Z) : M unit :=
  fun w => (Ok tt, mkWorld (mkTrack v (nodes (self w))) (files w)).
Definition set_self_nodes (v : list (pynum * pynum)) : M unit :=
  fun w => (Ok tt, mkWorld (mkTrack (name (self w)) v) (files w)).

(** [Track.__init__(self, name, nodes)] *)
Definition __init__ (name : list Z) (nodes : list (pynum * pynum)) : M unit :=
  exec set_self_name name;
  set_self_nodes nodes.

(** An open binary file: the path it writes to. *)
Record file : Type := mkFile { path : list Z }.

(** [open(filename, 'wb')] when it succeeds, on a resolved path: the file
    is created, or truncated when it exists.  [with_open] below is the
    [with] statement around a call that can raise. *)
Definition open_wb (filename : list Z) : M file :=
  fun w => (Ok (mkFile filename),
            mkWorld (self w) (<[filename := []]> (files w))).

(** [f.write(b)]: [b] is appended.  The content is what the file holds once
    the [with] block has closed it. *)
Definition f_write (f : file) (b : list byte) : M unit :=
  fun w => (Ok tt,
            mkWorld (self w)
              (<[path f := default [] (files w !! path f) ++ b]> (files w))).

(** [for x in l: body(x)] *)
Fixpoint for_each {A} (l : list A) (body : A -> M unit) : M unit :=
  match l with
  | [] => ret tt
  | x :: l' => exec body x; for_each l' body
  end.

Definition b_TRKF : list byte := list_byte_of_string "TRKF".

Definition too_many_nodes : string :=
  "Number of nodes exceeds maximum of 65535".

(** [Track.write_trk(self, filename)] *)
Definition write_trk (filename : list Z) : M unit :=
  do ns <- self_nodes;
  if len ns >? MAX_NODES then raise (ValueError too_many_nodes)
  else
    do f <- open_wb filename;
    let header := bytearray 128 in
    let header := slice_assign header 0 4 b_TRKF in
    do major <- lift (to_bytes_little 0 4);
    let header := slice_assign header 4 8 major in
    do minor <- lift (to_bytes_little 1 4);
    let header := slice_assign header 8 12 minor in
    do nm <- self_name;
    do encoded <- lift (encode_utf8 nm);
    let name_bytes := slice_to encoded 64 in
    let header := slice_assign header 12 (12 + len name_bytes) name_bytes in
    exec f_write f header;
    do ns <- self_nodes;
    do count <- lift (to_bytes_little (len ns) 2);
    exec f_write f count;
    do ns <- self_nodes;
    for_each ns (fun '(x, y) =>
      do packed <- lift (struct_pack_ff x y);
      f_write f packed).

(** [generate_straight(length)] of main.py *)
Definition generate_straight (length : pynum) : result Track :=
  rbind (format_0f length) (fun s =>
  let name := s ++ str_lit " m Straight" in
  Ok (mkTrack name [(PyInt 0, PyInt 0); (length, PyInt 0)])).

(** ** The method in an operating system environment *)

(** What the operating system decides about a path: the file it names
    (two spellings such as ["./a.trk"] and ["a.trk"] can name one file),
    the exception, if any, that opening it for writing raises
    ([FileNotFoundError], [IsADirectoryError], [PermissionError], ...),
    and, for a file and the bytes that a [with] block writes to it, the
    exception, if any, with which a write, a flush or the close fails (no
    space left on the device, an input/output error, ...) together with
    what the file holds afterwards. *)
Record os : Type := mkOs {
  resolve : list Z -> list Z;
  open_error : list Z -> option exn;
  write_fault : list Z -> list byte -> option (exn * list byte)
}.

(** The exception of [open(filename, 'wb')], if it raises: a path with a
    NUL character is refused by Python itself, any other by the operating
    system. *)
Definition open_outcome (env : os) (filename : list Z) : option exn :=
  if existsb (Z.eqb 0) filename
  then Some (ValueError "embedded null byte")
  else open_error env filename.

(** The end of a [with open(...)] block on the file [id], however the body
    ended: the bytes written are flushed and the file is closed.  When the
    operating system does not take them, its exception is the block's, in
    place of the one the body may have ended with, and the file holds what
    the operating system left. *)
Definition close_file (env : os) (id : list Z) (run : result unit * world)
  : result unit * world :=
  let '(r, w) := run in
  match write_fault env id (default [] (files w !! id)) with
  | None => (r, w)
  | Some (e, rest) => (Raise e, mkWorld (self w) (<[id := rest]> (files w)))
  end.

(** [with open(filename, 'wb') as f: body]: [open] raises and leaves the
    file system as it is, or creates or truncates the file that the path
    names; then the body runs and the file is closed. *)
Definition with_open (env : os) (filename : list Z) (body : file -> M unit)
  : M unit :=
  fun w =>
    match open_outcome env filename with
    | Some e => (Raise e, w)
    | None =>
        let id := resolve env filename in
        close_file env id (bind (open_wb id) body w)
    end.

(** [Track.write_trk(self, filename)] in the environment [env]. *)
Definition write_trk_io (env : os) (filename : list Z) : M unit :=
  do ns <- self_nodes;
  if len ns >? MAX_NODES then raise (ValueError too_many_nodes)
  else
    with_open env filename (fun f =>
    let header := bytearray 128 in
    let header := slice_assign header 0 4 b_TRKF in
    do major <- lift (to_bytes_little 0 4);
    let header := slice_assign header 4 8 major in
    do minor <- lift (to_bytes_little 1 4);
    let header := slice_assign header 8 12 minor in
    do nm <- self_name;
    do encoded <- lift (encode_utf8 nm);
    let name_bytes := slice_to encoded 64 in
    let header := slice_assign header 12 (12 + len name_bytes) name_bytes in
    exec f_write f header;
    do ns <- self_nodes;
    do count <- lift (to_bytes_little (len ns) 2);
    exec f_write f count;
    do ns <- self_nodes;
    for_each ns (fun '(x, y) =>
      do packed <- lift (struct_pack_ff x y);
      f_write f packed)).

(** An environment in which every path names itself and opens, and every
    write is taken. *)
Definition plain_os : os :=
  mkOs (fun p => p) (fun _ => None) (fun _ _ => None).

(** An environment in which a leading ["./"] is dropped, nothing under
    ["nodir/"] can be opened, and ["/dev/full"] opens but takes no byte. *)
Definition small_os : os :=
  mkOs (fun p => match p with 46 :: 47 :: rest => rest | _ => p end)
       (fun p => match p with
                 | 110 :: 111 :: 100 :: 105 :: 114 :: 47 :: _ =>
                     Some (OSError "FileNotFoundError")
                 | _ => None
                 end)
       (fun id data =>
          match id with
          | 47 :: 100 :: 101 :: 118 :: 47 :: 102 :: 117 :: 108 :: 108 :: [] =>
              match data with
              | [] => None
              | _ :: _ => Some (OSError "No space left on device", [])
              end
          | _ => None
          end).

(** ** What a run of [write_trk] amounts to

    The header as a function of the encoded name, the bytes that the loop
    over the nodes writes together with the way the loop ends, and from
    these the file and the outcome of a run. *)

Definition trk_header (encoded : list byte) : list byte :=
  b_TRKF ++ le_bytes 4 0 ++ le_bytes 4 1 ++ take 64 encoded
    ++ replicate (116 - Nat.min 64 (length encoded)) x00.

Fixpoint pack_nodes (ns : list (pynum * pynum)) : list byte * result unit :=
  match ns with
  | [] => ([], Ok tt)
  | (x, y) :: ns' =>
      match struct_pack_ff x y with
      | Raise e => ([], Raise e)
      | Ok b => let '(out, r) := pack_nodes ns' in (b ++ out, r)
      end
  end.

(** The file and the outcome of a run that got past the limit check, as
    functions of the track alone. *)
Definition trk_file (t : Track) : list byte :=
  match encode_utf8 (name t) with
  | Raise _ => []
  | Ok encoded =>
      trk_header encoded ++ le_bytes 2 (len (nodes t))
        ++ (pack_nodes (nodes t)).1
  end.

Definition trk_result (t : Track) : result unit :=
  match encode_utf8 (name t) with
  | Raise e => Raise e
  | Ok _ => (pack_nodes (nodes t)).2
  end.

(** The whole method, as a function of the track, the path and the file
    system it starts from. *)
Definition write_trk_outcome (t : Track) (fn : list Z)
    (fs : gmap (list Z) (list byte)) : result unit * world :=
  if len (nodes t) >? MAX_NODES then
    (Raise (ValueError too_many_nodes), mkWorld t fs)
  else (trk_result t, mkWorld t (<[fn := trk_file t]> fs)).

(** The content of the file [fn], when it exists. *)
Definition content (w : world) (fn : list Z) : option (list byte) :=
  files w !! fn.

(** A computation that leaves the object bound to [self] as it is. *)
Definition keeps_self {A} (m : M A) : Prop :=
  forall w, self (m w).2 = self w.

(** ** Names that encode and nodes that pack *)

(** A Unicode scalar value: a code point that is not a surrogate. *)
Definition scalar_value (c : Z) : bool :=
  (0 <=? c) && (c <? 0x110000) && negb (is_surrogate c).

(** A name all of whose characters are scalar values; these are the names
    that [encode('utf-8')] accepts. *)
Definition encodable (s : list Z) : Prop := forallb scalar_value s = true.

(** A node that [struct.pack('<ff', ...)] accepts: neither coordinate is a
    finite number whose binary32 rounding is an infinity. *)
Definition packable (nd : pynum * pynum) : Prop :=
  is_ok (struct_pack_ff nd.1 nd.2) = true.

Definition to_float (v : pynum) : spec_float :=
  match v with
  | PyFloat x => x
  | PyInt n => float_of_int n
  end.

(** A value as a 32-bit little-endian IEEE-754 float. *)
Definition float32_le (v : pynum) : list byte :=
  le_bytes 4 (bits_of_float32 (float32_of_float (to_float v))).

(** A node as two such floats, [x] first. *)
Definition node_bytes (nd : pynum * pynum) : list byte :=
  float32_le nd.1 ++ float32_le nd.2.

(** ** Tracks and files used as examples *)

Definition out_trk : list Z := str_lit "straight.trk".

(** [Track("100 m Straight", [(0, 0), (100, 0)])] *)
Definition straight_100 : Track :=
  mkTrack (str_lit "100 m Straight") [(PyInt 0, PyInt 0); (PyInt 100, PyInt 0)].

(** Its file, byte by byte. *)
Definition straight_100_trk : list byte :=
  list_byte_of_string "TRKF"
    ++ [x00; x00; x00; x00]
    ++ [x01; x00; x00; x00]
    ++ list_byte_of_string "100 m Straight"
    ++ replicate 102 x00
    ++ [x02; x00]
    ++ [x00; x00; x00; x00; x00; x00; x00; x00]
    ++ [x00; x00; xc8; x42; x00; x00; x00; x00].

(** The binary64 value [100.0]. *)
Definition hundred : spec_float := S754_finite false 7036874417766400 (-46).

(** The binary64 value [2^130], beyond the binary32 range. *)
Definition two_pow_130 : spec_float := S754_finite false 4503599627370496 78.

(** A name made of the single code point U+D800, a lone surrogate. *)
Definition lone_surrogate_track : Track := mkTrack [0xD800] [].




(** [n] nodes at the origin. *)
Definition long_track (n : Z) : Track :=
  mkTrack (str_lit "long") (replicate (Z.to_nat n) (PyInt 0, PyInt 0)).

(** A name of 70 ASCII letters, longer than the name field. *)
Definition long_name_track : Track :=
  mkTrack (replicate 70 0x61) [(PyInt 0, PyInt 0)].

(** ** More tracks and paths used as examples *)

Definition other_trk : list Z := str_lit "other.trk".

(** A file system in which both paths hold older, longer content. *)
Definition used_files : gmap (list Z) (list byte) :=
  <[out_trk := replicate 500 xff]> (<[other_trk := replicate 7 x2a]> ∅).

(** Two names that differ only after their 64th byte. *)
Definition long_name_track' : Track :=
  mkTrack (replicate 64 0x61 ++ str_lit "xyz") [(PyInt 0, PyInt 0)].

(** A name of sixteen characters outside the basic multilingual plane. *)
Definition emoji_name_track : Track :=
  mkTrack (replicate 16 0x1F600) [].

(** ** Reading a binary32 pattern *)

(** The value of a 32-bit pattern, the reader's side of
    [bits_of_float32]: sign bit, 8-bit biased exponent, 23-bit fraction.
    Used to state that packing a coordinate loses nothing. *)
Definition float32_of_bits (b : Z) : spec_float :=
  let s := 2 ^ 31 <=? b in
  let E := (b / 2 ^ 23) mod 256 in
  let f := b mod 2 ^ 23 in
  if E =? 0 then
    match f with
    | Z.pos m => S754_finite s m (-149)
    | _ => S754_zero s
    end
  else if E =? 255 then
    if f =? 0 then S754_infinity s else S754_nan
  else
    match f + 2 ^ 23 with
    | Z.pos m => S754_finite s m (E - 150)
    | _ => S754_nan
    end.

(** [b] is the four bytes of the coordinate [v] as a little-endian
    binary32: the pattern of the value rounded to binary32, and for a NaN
    any pattern that reads back as a NaN. *)
Definition float32_bytes_of (v : pynum) (b : list byte) : Prop :=
  length b = 4%nat /\
  match float32_of_float (to_float v) with
  | S754_nan => float32_of_bits (from_bytes_little b) = S754_nan
  | y => b = le_bytes 4 (bits_of_float32 y)
  end.

(** [chunk] is the eight bytes of a node: [x] first, then [y]. *)
Definition node_encoding (nd : pynum * pynum) (chunk : list byte) : Prop :=
  exists bx by_,
    chunk = bx ++ by_ /\ float32_bytes_of nd.1 bx /\ float32_bytes_of nd.2 by_.

(** [y] is the binary32 number that the float [x] equals: the same zero,
    infinity or NaN, or the same sign and the same value [m * 2^e] with
    [x] given at a finer scale, [(m * 2^k) * 2^(e - k)], as a binary64
    mantissa of 53 bits is. *)
Definition binary32_form (x y : spec_float) : Prop :=
  valid_binary 24 128 y = true /\
  match x, y with
  | S754_finite sx mx ex, S754_finite s m e =>
      sx = s /\ exists k : N, mx = Pos.shiftl m k /\ ex = e - Z.of_N k
  | _, _ => x = y
  end.

(** [100.0] as a binary32 number. *)
Definition hundred32 : spec_float := S754_finite false 13107200 (-17).

(** The straight track of 100 m with float coordinates and a NUL after
    its name: another Track with the same file. *)
Definition straight_100_alias : Track :=
  mkTrack (str_lit "100 m Straight" ++ [0])
    [(PyFloat (S754_zero false), PyFloat (S754_zero false));
     (PyFloat hundred, PyInt 0)].

(** Another spelling of [out_trk], and two paths that do not open. *)
Definition dot_out_trk : list Z := str_lit "./straight.trk".

Definition nul_path : list Z := [97; 0; 98].

Definition missing_dir_path : list Z := str_lit "nodir/x.trk".

Definition dev_full : list Z := str_lit "/dev/full".

(** The exception with which [struct.pack] refuses a coordinate that it
    refuses. *)
Definition refusal_of (v : pynum) : exn :=
  match v with
  | PyInt _ => StructError
  | PyFloat _ => OverflowError
  end.

(** * Properties *)

(** ** The library operations on known values *)

Example utf8_e_acute : encode_utf8 [0xE9] = Ok [xc3; xa9].
Proof. reflexivity. Qed.

Example utf8_euro_sign : encode_utf8 [0x20AC] = Ok [xe2; x82; xac].
Proof. reflexivity. Qed.

Example utf8_beyond_bmp : encode_utf8 [0x1F600] = Ok [xf0; x9f; x98; x80].
Proof. reflexivity. Qed.

Example utf8_lone_surrogate : encode_utf8 [0x61; 0xD800] = Raise UnicodeEncodeError.
Proof. reflexivity. Qed.

Example to_bytes_65535 : to_bytes_little 65535 2 = Ok [xff; xff].
Proof. reflexivity. Qed.

Example to_bytes_65536 : to_bytes_little 65536 2 = Raise OverflowError.
Proof. reflexivity. Qed.

(** [a = bytearray(4); a[1:3] = b'TRKF'] makes [a] six bytes long. *)
Example slice_assign_grows :
  slice_assign (bytearray 4) 1 3 b_TRKF = [x00; x54; x52; x4b; x46; x00].
Proof. reflexivity. Qed.

(** [1.0] is [0x3F800000]. *)
Example pack_one :
  pack_f (PyFloat (S754_finite false 4503599627370496 (-52)))
  = Ok [x00; x00; x80; x3f].
Proof. reflexivity. Qed.

(** The binary64 nearest to [0.1] rounds to the binary32 [0x3DCCCCCD]. *)
Example pack_one_tenth :
  pack_f (PyFloat (S754_finite false 7205759403792794 (-56)))
  = Ok [xcd; xcc; xcc; x3d].
Proof. reflexivity. Qed.

Example pack_int_minus_three : pack_f (PyInt (-3)) = Ok [x00; x00; x40; xc0].
Proof. reflexivity. Qed.

(** The largest finite binary32, [(2^24 - 1) * 2^104], is packed; the
    first binary64 value that rounds up to [2^128] is refused. *)
Example pack_largest :
  pack_f (PyFloat (S754_finite false 9007198717870080 75))
  = Ok [xff; xff; x7f; x7f].
Proof. reflexivity. Qed.

Example pack_too_large :
  pack_f (PyFloat (S754_finite false 9007199187632128 75)) = Raise OverflowError.
Proof. reflexivity. Qed.

Example pack_infinity :
  pack_f (PyFloat (S754_infinity true)) = Ok [x00; x00; x80; xff].
Proof. reflexivity. Qed.

(** The smallest positive binary64 value rounds to zero. *)
Example pack_tiny :
  pack_f (PyFloat (S754_finite false 1 (-1074))) = Ok [x00; x00; x00; x00].
Proof. reflexivity. Qed.

Example format_ties_to_even :
  format_0f (PyFloat (S754_finite false 5 (-1))) = Ok (str_lit "2") /\
  format_0f (PyFloat (S754_finite false 7 (-1))) = Ok (str_lit "4") /\
  format_0f (PyFloat (S754_finite true 1 (-2))) = Ok (str_lit "-0") /\
  format_0f (PyInt 100) = Ok (str_lit "100").
Proof. repeat split; reflexivity. Qed.

Example hundred_is_float_100 :
  float_of_int 100 = hundred /\ valid_binary 53 1024 hundred = true.
Proof. split; reflexivity. Qed.

(** ** Values that are already binary32 *)

(** Rounding to a format leaves a value of that format as it is. *)
Lemma binary_round_bounded prec emax s m e :
  bounded prec emax m e = true ->
  binary_round prec emax s m e = S754_finite s m e.
Proof.
  unfold bounded, canonical_mantissa. intros H.
  apply andb_prop in H as [Hc He]. apply Z.eqb_eq in Hc.
  unfold binary_round, shl_align. rewrite Hc, Z.sub_diag.
  unfold binary_round_aux, shr_fexp. cbn [Zdigits2].
  rewrite Hc, Z.sub_diag. cbn [shr shr_record_of_loc shr_m loc_of_shr_record
    round_nearest_even Zdigits2].
  rewrite Hc, Z.sub_diag. cbn [shr shr_m]. rewrite He. reflexivity.
Qed.

(** A coordinate that is a binary32 value is packed, and exactly. *)
Lemma binary32_packs x :
  valid_binary 24 128 x = true ->
  pack_f (PyFloat x) = Ok (le_bytes 4 (bits_of_float32 x)).
Proof.
  intros Hv. unfold pack_f, as_double, pack_float32. cbn [rbind].
  destruct x as [s|s| |s m e]; try reflexivity.
  cbn [float32_of_float valid_binary] in *.
  rewrite (binary_round_bounded _ _ _ _ _ Hv). reflexivity.
Qed.

Lemma binary32_node_packable x y :
  valid_binary 24 128 x = true -> valid_binary 24 128 y = true ->
  packable (PyFloat x, PyFloat y).
Proof.
  intros Hx Hy. unfold packable, struct_pack_ff. cbn [fst snd].
  rewrite (binary32_packs x Hx), (binary32_packs y Hy). reflexivity.
Qed.

(** For a float the only refusal is a finite value that rounds to an
    infinity. *)
Lemma pack_float_refused x :
  is_ok (pack_f (PyFloat x)) = false
  <-> is_inf x = false /\ is_inf (float32_of_float x) = true.
Proof.
  unfold pack_f, as_double, pack_float32. cbn [rbind].
  destruct (is_inf (float32_of_float x)), (is_inf x); cbn; intuition congruence.
Qed.


(** ** Bytes *)

Lemma Z_of_byte_of_Z z : Z_of_byte (byte_of_Z z) = z mod 256.
Proof.
  unfold Z_of_byte, byte_of_Z.
  assert (Hr : 0 <= z mod 256 < 256) by (apply Z.mod_pos_bound; lia).
  destruct (Byte.of_N (Z.to_N (z mod 256))) as [b|] eqn:E.
  - apply Byte.to_of_N in E. rewrite E. lia.
  - apply Byte.of_N_None_iff in E. lia.
Qed.

Lemma length_le_bytes k n : length (le_bytes k n) = k.
Proof. revert n; induction k as [|k IH]; intros n; simpl; [|rewrite IH]; reflexivity. Qed.

Lemma to_bytes_little_fits n k :
  0 <= n < 256 ^ Z.of_nat k -> to_bytes_little n k = Ok (le_bytes k n).
Proof.
  intros [H0 H1]. unfold to_bytes_little.
  destruct (Z.ltb_spec n 0); [lia|].
  destruct (Z.leb_spec (256 ^ Z.of_nat k) n); [lia|]. reflexivity.
Qed.

Lemma from_bytes_le_bytes k n :
  0 <= n -> from_bytes_little (le_bytes k n) = n mod 256 ^ Z.of_nat k.
Proof.
  revert n; induction k as [|k IH]; intros n Hn.
  - simpl. rewrite Z.mod_1_r. reflexivity.
  - cbn [le_bytes from_bytes_little].
    rewrite Z_of_byte_of_Z, IH by (apply Z.div_pos; lia).
    rewrite Z.mod_mod by lia.
    replace (Z.of_nat (S k)) with (1 + Z.of_nat k) by lia.
    rewrite Z.pow_add_r, Z.pow_1_r by lia.
    rewrite Z.rem_mul_r by lia. reflexivity.
Qed.


(** ** Slices *)

Lemma adjust_index_nonneg n i :
  0 <= i -> adjust_index n i = Nat.min n (Z.to_nat i).
Proof.
  intros Hi. unfold adjust_index.
  destruct (Z.ltb_spec i 0); lia.
Qed.

Lemma slice_to_nonneg {A} (a : list A) j :
  0 <= j -> slice_to a j = take (Z.to_nat j) a.
Proof.
  intros Hj. unfold slice_to. rewrite adjust_index_nonneg by lia.
  destruct (Nat.le_ge_cases (length a) (Z.to_nat j)).
  - rewrite Nat.min_l by lia. rewrite !take_ge by lia. reflexivity.
  - rewrite Nat.min_r by lia. reflexivity.
Qed.

Lemma slice_assign_inside {A} (a v : list A) (i j : nat) :
  (i <= j <= length a)%nat ->
  slice_assign a (Z.of_nat i) (Z.of_nat j) v = take i a ++ v ++ drop j a.
Proof.
  intros H. unfold slice_assign.
  rewrite !adjust_index_nonneg by lia.
  rewrite !Nat2Z.id.
  replace (Nat.min (length a) i) with i by lia.
  replace (Nat.max i (Nat.min (length a) j)) with j by lia.
  reflexivity.
Qed.

(** Replacing a slice by as many bytes keeps the length. *)
Lemma length_slice_assign {A} (a v : list A) (i j : nat) :
  (i <= j <= length a)%nat -> length v = (j - i)%nat ->
  length (slice_assign a (Z.of_nat i) (Z.of_nat j) v) = length a.
Proof.
  intros H Hv. rewrite slice_assign_inside by lia.
  rewrite !length_app, length_take, length_drop. lia.
Qed.

(** ** The header *)

Lemma length_b_TRKF : length b_TRKF = 4%nat.
Proof. reflexivity. Qed.

(** The header once magic and versions are in place. *)
Lemma header_fixed_part :
  slice_assign
    (slice_assign (slice_assign (bytearray 128) 0 4 b_TRKF) 4 8 (le_bytes 4 0))
    8 12 (le_bytes 4 1)
  = (b_TRKF ++ le_bytes 4 0 ++ le_bytes 4 1) ++ replicate 116 x00.
Proof. vm_compute. reflexivity. Qed.

(** Placing the name: the slice that is replaced is as long as the bytes
    that replace it, and it ends at byte 76 at the latest. *)
Lemma header_with_name encoded :
  let name_bytes := slice_to encoded 64 in
  slice_assign
    (slice_assign
       (slice_assign (slice_assign (bytearray 128) 0 4 b_TRKF) 4 8 (le_bytes 4 0))
       8 12 (le_bytes 4 1))
    12 (12 + len name_bytes) name_bytes
  = trk_header encoded.
Proof.
  intros name_bytes. rewrite header_fixed_part.
  subst name_bytes. rewrite slice_to_nonneg by lia.
  change (Z.to_nat 64) with 64%nat.
  set (nb := take 64 encoded).
  assert (Hk : length nb = Nat.min 64 (length encoded))
    by (subst nb; apply length_take).
  unfold len.
  replace (12 + Z.of_nat (length nb)) with (Z.of_nat (12 + length nb)) by lia.
  change 12 with (Z.of_nat 12).
  rewrite slice_assign_inside
    by (rewrite length_app, length_replicate; cbn [length le_bytes b_TRKF app]; simpl; lia).
  rewrite take_app_length' by reflexivity.
  rewrite drop_app_ge by (simpl; lia).
  rewrite drop_replicate.
  unfold trk_header. rewrite <- !app_assoc. fold nb.
  repeat f_equal.
  change (length (b_TRKF ++ le_bytes 4 0 ++ le_bytes 4 1)) with 12%nat. lia.
Qed.

Lemma length_trk_header encoded : length (trk_header encoded) = 128%nat.
Proof.
  unfold trk_header.
  rewrite !length_app, !length_le_bytes, length_take, length_replicate,
    length_b_TRKF.
  lia.
Qed.

(** ** Running the method *)

(** The loop over the nodes appends to the open file what [pack_nodes]
    collects, and ends the way [pack_nodes] ends. *)
Lemma for_each_pack t fs fn c ns :
  for_each ns (fun '(x, y) =>
      do packed <- lift (struct_pack_ff x y);
      f_write (mkFile fn) packed)
    (mkWorld t (<[fn := c]> fs))
  = ((pack_nodes ns).2, mkWorld t (<[fn := c ++ (pack_nodes ns).1]> fs)).
Proof.
  revert c; induction ns as [|[x y] ns IH]; intros c.
  - simpl. unfold ret. rewrite app_nil_r. reflexivity.
  - cbn [for_each pack_nodes]. unfold bind at 1. unfold bind at 1.
    unfold lift at 1.
    destruct (struct_pack_ff x y) as [b|e].
    + unfold f_write at 1. cbn [path self files].
      rewrite lookup_insert_eq, insert_insert_eq. cbn [default].
      rewrite IH. destruct (pack_nodes ns) as [out r]. cbn [fst snd].
      rewrite app_assoc. reflexivity.
    + cbn [fst snd]. rewrite app_nil_r. reflexivity.
Qed.

Lemma write_trk_run t fn fs :
  write_trk fn (mkWorld t fs) = write_trk_outcome t fn fs.
Proof.
  unfold write_trk, write_trk_outcome, trk_result, trk_file.
  unfold bind at 1. unfold self_nodes at 1. cbn [self files].
  destruct (Z.gtb_spec (len (nodes t)) MAX_NODES) as [Hgt|Hle]; [reflexivity|].
  unfold bind at 1. unfold open_wb at 1. cbn [self files].
  change (to_bytes_little 0 4) with (Ok (le_bytes 4 0)).
  change (to_bytes_little 1 4) with (Ok (le_bytes 4 1)).
  unfold bind at 1. unfold lift at 1.
  unfold bind at 1. unfold lift at 1.
  unfold bind at 1. unfold self_name at 1. cbn [self files].
  unfold bind at 1. unfold lift at 1.
  destruct (encode_utf8 (name t)) as [encoded|e]; [|reflexivity].
  rewrite header_with_name.
  unfold bind at 1. unfold f_write at 1. cbn [path self files].
  rewrite lookup_insert_eq, insert_insert_eq. cbn [default app].
  unfold bind at 1. unfold self_nodes at 1. cbn [self files].
  rewrite to_bytes_little_fits
    by (unfold len, MAX_NODES in *; change (256 ^ Z.of_nat 2) with 65536; lia).
  unfold bind at 1. unfold lift at 1.
  unfold bind at 1. unfold f_write at 1. cbn [path self files].
  rewrite lookup_insert_eq, insert_insert_eq. cbn [default].
  unfold bind at 1. unfold self_nodes at 1. cbn [self files].
  rewrite for_each_pack. rewrite <- app_assoc. reflexivity.
Qed.

Lemma write_trk_at w fn :
  write_trk fn w = write_trk_outcome (self w) fn (files w).
Proof. destruct w as [t fs]. apply write_trk_run. Qed.

(** ** More on slices *)

Lemma slice_nonneg {A} (a : list A) i j :
  0 <= i -> 0 <= j ->
  slice a i j = drop (Z.to_nat i) (take (Z.to_nat j) a).
Proof.
  intros Hi Hj. unfold slice. rewrite !adjust_index_nonneg by lia.
  assert (Ht : take (Nat.min (length a) (Z.to_nat j)) a = take (Z.to_nat j) a).
  { destruct (Nat.le_ge_cases (length a) (Z.to_nat j)).
    - rewrite Nat.min_l by lia. rewrite !take_ge by lia. reflexivity.
    - rewrite Nat.min_r by lia. reflexivity. }
  rewrite Ht.
  destruct (Nat.le_ge_cases (length a) (Z.to_nat i)).
  - rewrite Nat.min_l by lia.
    rewrite !drop_ge by (rewrite length_take; lia). reflexivity.
  - rewrite Nat.min_r by lia. reflexivity.
Qed.

Lemma slice_app_l {A} (a b : list A) i j :
  0 <= i -> 0 <= j <= len a -> slice (a ++ b) i j = slice a i j.
Proof.
  intros Hi Hj. unfold len in Hj. rewrite !slice_nonneg by lia.
  rewrite take_app_le by lia. reflexivity.
Qed.

Lemma slice_app_r {A} (a b : list A) i j :
  len a <= i -> len a <= j ->
  slice (a ++ b) i j = slice b (i - len a) (j - len a).
Proof.
  intros Hi Hj. unfold len in *. rewrite !slice_nonneg by lia.
  rewrite take_app_ge by lia.
  rewrite drop_app_ge by lia.
  f_equal; [lia|]. f_equal. lia.
Qed.

Lemma lookup_app_plus {A} (a b : list A) (n i : nat) :
  length a = n -> (a ++ b) !! (n + i)%nat = b !! i.
Proof. intros <-. rewrite lookup_app_r by lia. f_equal. lia. Qed.

(** ** Packing the nodes *)

Lemma pack_f_ok v b : pack_f v = Ok b -> b = float32_le v.
Proof.
  unfold pack_f, as_double, float32_le, to_float.
  destruct v as [n|x]; cbn [rbind].
  - destruct (is_inf (float_of_int n)); cbn [rbind]; [discriminate|].
    unfold pack_float32. destruct (_ && _); congruence.
  - unfold pack_float32. destruct (_ && _); congruence.
Qed.

Lemma struct_pack_ff_ok x y b :
  struct_pack_ff x y = Ok b -> b = node_bytes (x, y).
Proof.
  unfold struct_pack_ff, node_bytes. cbn [fst snd].
  destruct (pack_f x) as [bx|] eqn:Ex; cbn [rbind]; [|discriminate].
  destruct (pack_f y) as [by_|] eqn:Ey; cbn [rbind]; [|discriminate].
  intros [= <-]. apply pack_f_ok in Ex, Ey. congruence.
Qed.

Lemma packable_bytes nd :
  packable nd -> struct_pack_ff nd.1 nd.2 = Ok (node_bytes nd).
Proof.
  unfold packable. destruct nd as [x y]. cbn [fst snd].
  destruct (struct_pack_ff x y) as [b|] eqn:E; [|discriminate].
  intros _. apply struct_pack_ff_ok in E. congruence.
Qed.

Lemma length_node_bytes nd : length (node_bytes nd) = 8%nat.
Proof.
  unfold node_bytes, float32_le. rewrite length_app, !length_le_bytes.
  reflexivity.
Qed.


Lemma pack_nodes_all ns :
  Forall packable ns -> pack_nodes ns = (flat_map node_bytes ns, Ok tt).
Proof.
  induction 1 as [|[x y] ns Hp _ IH]; [reflexivity|].
  cbn [pack_nodes flat_map].
  pose proof (packable_bytes _ Hp) as E. cbn [fst snd] in E.
  rewrite E, IH. reflexivity.
Qed.

(** The loop ends normally only when every node was packed. *)
Lemma pack_nodes_returns ns out :
  pack_nodes ns = (out, Ok tt) -> Forall packable ns.
Proof.
  revert out; induction ns as [|[x y] ns IH]; intros out H; [constructor|].
  cbn [pack_nodes] in H.
  destruct (struct_pack_ff x y) as [b|e] eqn:E; [|discriminate].
  destruct (pack_nodes ns) as [out' r] eqn:E'.
  injection H as _ ->. constructor; [|eauto].
  unfold packable. cbn [fst snd]. rewrite E. reflexivity.
Qed.

(** What the loop writes is always the encoding of a prefix of the
    nodes. *)
Lemma pack_nodes_prefix ns :
  exists k, (k <= length ns)%nat /\
    (pack_nodes ns).1 = flat_map node_bytes (take k ns).
Proof.
  induction ns as [|[x y] ns (k & Hk & IH)].
  - exists 0%nat. split; [reflexivity|reflexivity].
  - cbn [pack_nodes].
    destruct (struct_pack_ff x y) as [b|e] eqn:E.
    + exists (S k). split; [simpl; lia|].
      destruct (pack_nodes ns) as [out r]. cbn [fst snd] in *.
      rewrite (struct_pack_ff_ok _ _ _ E), IH. reflexivity.
    + exists 0%nat. split; [lia|reflexivity].
Qed.

(** ** Runs that get past the checks *)

Lemma scalar_value_encodes c :
  scalar_value c = true -> exists b, utf8_char c = Ok b.
Proof.
  unfold scalar_value, utf8_char. intros H.
  apply andb_prop in H as [H Hs]. apply andb_prop in H as [H0 H1].
  apply negb_true_iff in Hs. rewrite Hs.
  destruct (Z.ltb_spec c 0); [lia|].
  rewrite H1.
  repeat match goal with |- context [if ?b then _ else _] => destruct b end;
    eauto.
Qed.

Lemma utf8_char_scalar c b : utf8_char c = Ok b -> scalar_value c = true.
Proof.
  unfold scalar_value, utf8_char, is_surrogate.
  destruct (Z.ltb_spec c 0); [discriminate|].
  destruct (Z.ltb_spec c 0x80);
    [intros _; repeat (apply andb_true_intro; split); lia|].
  destruct (Z.ltb_spec c 0x800);
    [intros _; repeat (apply andb_true_intro; split); lia|].
  destruct (Z.ltb_spec c 0x10000).
  - destruct ((0xD800 <=? c) && (c <=? 0xDFFF)) eqn:Es; [discriminate|].
    intros _. repeat (apply andb_true_intro; split); lia.
  - destruct (Z.ltb_spec c 0x110000); [|discriminate].
    intros _. repeat (apply andb_true_intro; split); lia.
Qed.

Lemma encodable_inv s : encodable s -> exists b, encode_utf8 s = Ok b.
Proof.
  unfold encodable. induction s as [|c s IH]; cbn [forallb encode_utf8].
  - eauto.
  - intros H. apply andb_prop in H as [Hc Hs].
    destruct (scalar_value_encodes c Hc) as [b ->].
    destruct (IH Hs) as [bs ->]. cbn [rbind]. eauto.
Qed.

(** The names that encode are exactly those without a surrogate. *)
Lemma encodable_iff s : encodable s <-> is_ok (encode_utf8 s) = true.
Proof.
  split.
  - intros H. destruct (encodable_inv s H) as [b ->]. reflexivity.
  - unfold encodable. induction s as [|c s IH]; cbn [forallb encode_utf8];
      [reflexivity|].
    destruct (utf8_char c) as [b|] eqn:Ec; cbn [rbind]; [|discriminate].
    destruct (encode_utf8 s) as [bs|]; cbn [rbind]; [|discriminate].
    intros _. rewrite (utf8_char_scalar c b Ec). apply IH. reflexivity.
Qed.

(** Among well-formed strings, only surrogates stand in the way. *)
Lemma wf_str_encodable s :
  wf_str s -> Forall (fun c => is_surrogate c = false) s -> encodable s.
Proof.
  unfold wf_str, encodable, valid_code_point.
  induction 1 as [|c s Hc _ IH]; intros Hs; [reflexivity|].
  inversion Hs as [|? ? Hsc Hss]; subst. cbn [forallb].
  rewrite IH by assumption. unfold scalar_value. rewrite Hsc.
  destruct (Z.leb_spec 0 c); [|lia].
  destruct (Z.ltb_spec c 0x110000); [reflexivity|lia].
Qed.

Lemma not_too_many t :
  len (nodes t) <= MAX_NODES -> (len (nodes t) >? MAX_NODES) = false.
Proof. intros H. destruct (Z.gtb_spec (len (nodes t)) MAX_NODES); [lia|reflexivity]. Qed.

(** When the count is accepted and the name encodes, the header and the
    count are written, whatever happens in the loop. *)
Lemma write_trk_accepted t fn fs :
  len (nodes t) <= MAX_NODES ->
  write_trk fn (mkWorld t fs)
  = (trk_result t, mkWorld t (<[fn := trk_file t]> fs)).
Proof.
  intros Hn. rewrite write_trk_run. unfold write_trk_outcome.
  rewrite not_too_many by assumption. reflexivity.
Qed.

Lemma write_trk_header_written t fn fs encoded :
  len (nodes t) <= MAX_NODES ->
  encode_utf8 (name t) = Ok encoded ->
  content (write_trk fn (mkWorld t fs)).2 fn
  = Some (trk_header encoded ++ le_bytes 2 (len (nodes t))
            ++ (pack_nodes (nodes t)).1).
Proof.
  intros Hn He. rewrite write_trk_accepted by assumption.
  unfold content, trk_file. cbn [snd files]. rewrite He.
  apply lookup_insert_eq.
Qed.

Lemma write_trk_succeeds t fn fs encoded :
  len (nodes t) <= MAX_NODES ->
  encode_utf8 (name t) = Ok encoded ->
  Forall packable (nodes t) ->
  write_trk fn (mkWorld t fs)
  = (Ok tt,
     mkWorld t
       (<[fn := trk_header encoded ++ le_bytes 2 (len (nodes t))
                  ++ flat_map node_bytes (nodes t)]> fs)).
Proof.
  intros Hn He Hp. rewrite write_trk_accepted by assumption.
  unfold trk_result, trk_file. rewrite He, (pack_nodes_all _ Hp).
  reflexivity.
Qed.

(** Conversely, a run that returns has passed all three obstacles. *)
Lemma write_trk_returns t fn fs w' :
  write_trk fn (mkWorld t fs) = (Ok tt, w') ->
  len (nodes t) <= MAX_NODES /\
  (exists encoded, encode_utf8 (name t) = Ok encoded) /\
  Forall packable (nodes t).
Proof.
  rewrite write_trk_run. unfold write_trk_outcome, trk_result.
  destruct (Z.gtb_spec (len (nodes t)) MAX_NODES) as [|Hle]; [discriminate|].
  destruct (encode_utf8 (name t)) as [encoded|]; [|discriminate].
  destruct (pack_nodes (nodes t)) as [out r] eqn:E. cbn [snd].
  intros [= -> _]. split; [lia|]. split; [eauto|].
  eapply pack_nodes_returns; eassumption.
Qed.

(** ** The layout of the header *)

Lemma slice_full {A} (a : list A) : slice a 0 (len a) = a.
Proof.
  unfold len. rewrite slice_nonneg by lia.
  rewrite Nat2Z.id, take_ge by lia. reflexivity.
Qed.

Lemma slice_exact {A} (a : list A) n : len a = n -> slice a 0 n = a.
Proof. intros <-. apply slice_full. Qed.

Lemma trk_header_layout encoded :
  trk_header encoded
  = (b_TRKF ++ le_bytes 4 0 ++ le_bytes 4 1) ++ take 64 encoded
      ++ replicate (116 - length (take 64 encoded)) x00.
Proof.
  unfold trk_header. rewrite length_take, <- !app_assoc. reflexivity.
Qed.

Lemma len_take_64 (encoded : list byte) : 0 <= len (take 64 encoded) <= 64.
Proof. unfold len. rewrite length_take. lia. Qed.

Lemma trk_header_name encoded :
  slice (trk_header encoded) 12 (12 + len (take 64 encoded)) = take 64 encoded.
Proof.
  pose proof (len_take_64 encoded) as Hk.
  rewrite trk_header_layout.
  rewrite slice_app_r by (change (len (b_TRKF ++ _)) with 12; lia).
  change (len (b_TRKF ++ le_bytes 4 0 ++ le_bytes 4 1)) with 12.
  replace (12 - 12) with 0 by lia.
  replace (12 + len (take 64 encoded) - 12) with (len (take 64 encoded)) by lia.
  rewrite slice_app_l by lia. apply slice_full.
Qed.

Lemma trk_header_padding encoded :
  slice (trk_header encoded) (12 + len (take 64 encoded)) 128
  = replicate (116 - length (take 64 encoded)) x00.
Proof.
  pose proof (len_take_64 encoded) as Hk.
  rewrite trk_header_layout.
  rewrite slice_app_r by (change (len (b_TRKF ++ _)) with 12; lia).
  change (len (b_TRKF ++ le_bytes 4 0 ++ le_bytes 4 1)) with 12.
  rewrite slice_app_r by lia.
  replace (12 + len (take 64 encoded) - 12 - len (take 64 encoded)) with 0
    by lia.
  set (z := replicate _ _).
  replace (128 - 12 - len (take 64 encoded)) with (len z)
    by (subst z; unfold len in *; rewrite length_replicate; lia).
  apply slice_full.
Qed.

Lemma trk_header_zero_from encoded (i : nat) :
  (12 + length (take 64 encoded) <= i < 128)%nat ->
  trk_header encoded !! i = Some x00.
Proof.
  intros Hi. rewrite trk_header_layout.
  replace i with (12 + (length (take 64 encoded)
                        + (i - 12 - length (take 64 encoded))))%nat by lia.
  rewrite lookup_app_plus by reflexivity.
  rewrite lookup_app_plus by reflexivity.
  apply lookup_replicate_2.
  pose proof (len_take_64 encoded). unfold len in *. lia.
Qed.

Lemma trk_header_fixed encoded :
  slice (trk_header encoded) 0 4 = b_TRKF /\
  slice (trk_header encoded) 4 8 = le_bytes 4 0 /\
  slice (trk_header encoded) 8 12 = le_bytes 4 1.
Proof.
  rewrite trk_header_layout. repeat split;
    (rewrite slice_app_l by (change (len (b_TRKF ++ _)) with 12; lia));
    reflexivity.
Qed.

(** The first 128 bytes of a file that starts with a header. *)
Lemma slice_header encoded rest :
  slice (trk_header encoded ++ rest) 0 128 = trk_header encoded.
Proof.
  assert (H : len (trk_header encoded) = 128)
    by (unfold len; rewrite length_trk_header; reflexivity).
  rewrite slice_app_l by lia. rewrite <- H. apply slice_full.
Qed.

(** ** Runs in an operating system environment *)

(** The method in an environment: the limit check, then [open], which may
    raise and then leaves everything as it is, then the method on the file
    that the path names, and the close of that file. *)
Lemma write_trk_io_run env t fn fs :
  write_trk_io env fn (mkWorld t fs)
  = if len (nodes t) >? MAX_NODES then
      (Raise (ValueError too_many_nodes), mkWorld t fs)
    else
      match open_outcome env fn with
      | Some e => (Raise e, mkWorld t fs)
      | None =>
          close_file env (resolve env fn)
            (write_trk (resolve env fn) (mkWorld t fs))
      end.
Proof.
  rewrite write_trk_run.
  unfold write_trk_io, write_trk_outcome, trk_result, trk_file.
  unfold bind at 1. unfold self_nodes at 1. cbn [self files].
  destruct (Z.gtb_spec (len (nodes t)) MAX_NODES) as [Hgt|Hle]; [reflexivity|].
  unfold with_open at 1.
  destruct (open_outcome env fn) as [e|]; [reflexivity|].
  cbv zeta. f_equal.
  unfold bind at 1. unfold open_wb at 1. cbn [self files].
  change (to_bytes_little 0 4) with (Ok (le_bytes 4 0)).
  change (to_bytes_little 1 4) with (Ok (le_bytes 4 1)).
  unfold bind at 1. unfold lift at 1.
  unfold bind at 1. unfold lift at 1.
  unfold bind at 1. unfold self_name at 1. cbn [self files].
  unfold bind at 1. unfold lift at 1.
  destruct (encode_utf8 (name t)) as [encoded|e]; [|reflexivity].
  rewrite header_with_name.
  unfold bind at 1. unfold f_write at 1. cbn [path self files].
  rewrite lookup_insert_eq, insert_insert_eq. cbn [default app].
  unfold bind at 1. unfold self_nodes at 1. cbn [self files].
  rewrite to_bytes_little_fits
    by (unfold len, MAX_NODES in *; change (256 ^ Z.of_nat 2) with 65536; lia).
  unfold bind at 1. unfold lift at 1.
  unfold bind at 1. unfold f_write at 1. cbn [path self files].
  rewrite lookup_insert_eq, insert_insert_eq. cbn [default].
  unfold bind at 1. unfold self_nodes at 1. cbn [self files].
  rewrite for_each_pack. rewrite <- app_assoc. reflexivity.
Qed.

(** A run that gets past the limit check and [open]: the bytes of the
    method reach the file, unless the operating system refuses them. *)
Lemma write_trk_io_accepted env t fn fs :
  len (nodes t) <= MAX_NODES ->
  open_outcome env fn = None ->
  write_trk_io env fn (mkWorld t fs)
  = match write_fault env (resolve env fn) (trk_file t) with
    | None =>
        (trk_result t, mkWorld t (<[resolve env fn := trk_file t]> fs))
    | Some (e, rest) =>
        (Raise e, mkWorld t (<[resolve env fn := rest]> fs))
    end.
Proof.
  intros Hn Ho. rewrite write_trk_io_run, Ho.
  destruct (Z.gtb_spec (len (nodes t)) MAX_NODES) as [|_]; [lia|].
  rewrite write_trk_accepted by assumption.
  unfold close_file. cbn [self files]. rewrite lookup_insert_eq.
  cbn [default from_option id].
  destruct (write_fault env (resolve env fn) (trk_file t)) as [[e rest]|];
    [|reflexivity].
  rewrite insert_insert_eq. reflexivity.
Qed.

(** When [open] succeeds and every write is taken, the method is the method
    on the resolved path. *)
Lemma write_trk_io_opens env t fn fs :
  open_outcome env fn = None ->
  (forall data, write_fault env (resolve env fn) data = None) ->
  write_trk_io env fn (mkWorld t fs)
  = write_trk (resolve env fn) (mkWorld t fs).
Proof.
  intros Ho Hw. rewrite write_trk_io_run, Ho, write_trk_run.
  unfold write_trk_outcome, close_file.
  destruct (_ >? _); [reflexivity|]. rewrite Hw. reflexivity.
Qed.

(** A run that returns has passed the limit check, has opened the
    destination, has encoded the name and has packed every node. *)
Lemma write_trk_io_returns env t fn fs w' :
  write_trk_io env fn (mkWorld t fs) = (Ok tt, w') ->
  len (nodes t) <= MAX_NODES /\
  open_outcome env fn = None /\
  Forall packable (nodes t) /\
  exists encoded,
    encode_utf8 (name t) = Ok encoded /\
    w' = mkWorld t
           (<[resolve env fn := trk_header encoded ++ le_bytes 2 (len (nodes t))
                                  ++ flat_map node_bytes (nodes t)]> fs).
Proof.
  rewrite write_trk_io_run.
  destruct (Z.gtb_spec (len (nodes t)) MAX_NODES) as [|Hle]; [discriminate|].
  destruct (open_outcome env fn) as [e|]; [discriminate|].
  destruct (write_trk (resolve env fn) (mkWorld t fs)) as [r w1] eqn:Erun.
  unfold close_file.
  destruct (write_fault env (resolve env fn) _) as [[e rest]|];
    [discriminate|].
  intros Hrun. rewrite Hrun in Erun. clear Hrun. rename Erun into Hrun.
  destruct (write_trk_returns _ _ _ _ Hrun) as (Hn & [encoded He] & Hp).
  rewrite (write_trk_succeeds _ _ _ encoded Hn He Hp) in Hrun.
  split; [assumption|]. split; [reflexivity|]. split; [assumption|].
  exists encoded. split; [assumption|]. congruence.
Qed.

(** ** The bytes of a node *)




(** A node has eight bytes, whatever pattern a NaN takes. *)
Lemma node_encoding_length nd chunk :
  node_encoding nd chunk -> length chunk = 8%nat.
Proof.
  intros (bx & by_ & -> & [Hx _] & [Hy _]). rewrite length_app. lia.
Qed.

(** * The claims *)




(** C2: with more than 65535 nodes [write_trk] raises the [ValueError]
    that reports the excess, and the world is the one it started in: no
    file was created, truncated or written. *)
Theorem write_trk_too_many_nodes w fn :
  len (nodes (self w)) > MAX_NODES ->
  write_trk fn w = (Raise (ValueError too_many_nodes), w).
Proof.
  intros H. rewrite write_trk_at. unfold write_trk_outcome.
  destruct (Z.gtb_spec (len (nodes (self w))) MAX_NODES); [|lia].
  destruct w; reflexivity.
Qed.

Lemma write_trk_too_many_nodes_witness :
  write_trk out_trk (mkWorld (long_track 65536) ∅)
  = (Raise (ValueError too_many_nodes), mkWorld (long_track 65536) ∅).
Proof.
  apply (write_trk_too_many_nodes (mkWorld (long_track 65536) ∅) out_trk).
  vm_compute. reflexivity.
Defined.




(** C4: in every run that writes a header (the count is accepted and the
    name has a UTF-8 encoding), the header holds from byte 12 on the first
    64 bytes of that encoding, cut on a byte boundary, and zeros from the
    end of the name through byte 127.  For an encoding longer than 64
    bytes, bytes 12-75 are its first 64 bytes and bytes 76-127 are zero;
    for one shorter than 64 bytes, the whole encoding is there and the
    bytes from [12 + len(name_bytes)] through 127 are zero. *)
Theorem header_name_field t fn fs encoded :
  len (nodes t) <= MAX_NODES ->
  encode_utf8 (name t) = Ok encoded ->
  exists out,
    content (write_trk fn (mkWorld t fs)).2 fn = Some out /\
    let header := slice out 0 128 in
    let name_bytes := slice_to encoded 64 in
    slice header 12 (12 + len name_bytes) = name_bytes /\
    (forall i, 12 + len name_bytes <= i < 128 ->
               header !! Z.to_nat i = Some x00) /\
    (64 < len encoded ->
       slice header 12 76 = take 64 encoded /\
       slice header 76 128 = replicate 52 x00) /\
    (len encoded < 64 ->
       slice header 12 (12 + len encoded) = encoded /\
       slice header (12 + len encoded) 128
       = replicate (116 - length encoded) x00).
Proof.
  intros Hn He. eexists.
  split; [apply write_trk_header_written; eassumption|].
  cbv zeta. rewrite slice_header, slice_to_nonneg by lia.
  change (Z.to_nat 64) with 64%nat.
  pose proof (trk_header_name encoded) as Hname.
  pose proof (trk_header_padding encoded) as Hpad.
  split; [assumption|]. split.
  { intros i Hi. apply trk_header_zero_from. unfold len in Hi. lia. }
  split.
  - intros Hlong.
    assert (Hk : length (take 64 encoded) = 64%nat)
      by (rewrite length_take; unfold len in Hlong; lia).
    unfold len in Hname, Hpad. rewrite Hk in Hname, Hpad.
    split; assumption.
  - intros Hshort.
    assert (Hk : take 64 encoded = encoded)
      by (apply take_ge; unfold len in Hshort; lia).
    rewrite Hk in Hname, Hpad. split; assumption.
Qed.

Lemma header_name_field_witness :
  exists out,
    content (write_trk out_trk (mkWorld straight_100 ∅)).2 out_trk = Some out /\
    let header := slice out 0 128 in
    let encoded := list_byte_of_string "100 m Straight" in
    let name_bytes := slice_to encoded 64 in
    slice header 12 (12 + len name_bytes) = name_bytes /\
    (forall i, 12 + len name_bytes <= i < 128 ->
               header !! Z.to_nat i = Some x00) /\
    (64 < len encoded ->
       slice header 12 76 = take 64 encoded /\
       slice header 76 128 = replicate 52 x00) /\
    (len encoded < 64 ->
       slice header 12 (12 + len encoded) = encoded /\
       slice header (12 + len encoded) 128
       = replicate (116 - length encoded) x00).
Proof.
  apply (header_name_field straight_100 out_trk ∅
           (list_byte_of_string "100 m Straight")).
  - vm_compute. discriminate.
  - reflexivity.
Defined.

(** C5: in every file that a call of [write_trk] has produced by
    returning normally, bytes 0-3 are the ASCII magic ["TRKF"], bytes 4-7
    decode as an unsigned little-endian integer to the major version 0, and
    bytes 8-11 to the minor version 1. *)
Theorem magic_and_version t fn fs w' :
  write_trk fn (mkWorld t fs) = (Ok tt, w') ->
  exists out,
    content w' fn = Some out /\
    slice out 0 4 = list_byte_of_string "TRKF" /\
    from_bytes_little (slice out 4 8) = 0 /\
    from_bytes_little (slice out 8 12) = 1.
Proof.
  intros Hrun.
  destruct (write_trk_returns _ _ _ _ Hrun) as (Hn & [encoded He] & Hp).
  rewrite (write_trk_succeeds _ _ _ encoded Hn He Hp) in Hrun.
  set (out := trk_header encoded ++ _) in Hrun.
  assert (Hw : w' = mkWorld t (<[fn := out]> fs)) by congruence.
  subst w'. exists out.
  split; [unfold content; cbn [files]; apply lookup_insert_eq|].
  subst out.
  assert (Hh : len (trk_header encoded) = 128)
    by (unfold len; rewrite length_trk_header; reflexivity).
  destruct (trk_header_fixed encoded) as (Hm & Hmaj & Hmin).
  rewrite !slice_app_l by lia. rewrite Hm, Hmaj, Hmin.
  repeat split; reflexivity.
Qed.

(** The same holds when the loop over the nodes raised: the header was
    written before. *)
Lemma magic_and_version_written t fn fs :
  len (nodes t) <= MAX_NODES ->
  encodable (name t) ->
  exists out,
    content (write_trk fn (mkWorld t fs)).2 fn = Some out /\
    slice out 0 4 = list_byte_of_string "TRKF" /\
    from_bytes_little (slice out 4 8) = 0 /\
    from_bytes_little (slice out 8 12) = 1.
Proof.
  intros Hn He. destruct (encodable_inv _ He) as [encoded Henc].
  eexists. split; [apply write_trk_header_written; eassumption|].
  assert (Hh : len (trk_header encoded) = 128)
    by (unfold len; rewrite length_trk_header; reflexivity).
  destruct (trk_header_fixed encoded) as (Hm & Hmaj & Hmin).
  rewrite !slice_app_l by lia. rewrite Hm, Hmaj, Hmin.
  repeat split; reflexivity.
Qed.

Lemma magic_and_version_witness :
  exists out,
    content (write_trk out_trk (mkWorld straight_100 ∅)).2 out_trk = Some out /\
    slice out 0 4 = list_byte_of_string "TRKF" /\
    from_bytes_little (slice out 4 8) = 0 /\
    from_bytes_little (slice out 8 12) = 1.
Proof.
  apply (magic_and_version straight_100 out_trk ∅).
  vm_compute. reflexivity.
Defined.

(** C6, as amended: [generate_straight(100)] is
    [Track("100 m Straight", [(0,0), (100,0)])], and writing it, to a fresh
    destination or over an existing file, returns normally and leaves a
    file of 146 bytes: bytes 0-3 are ["TRKF"], bytes 12-25 are the UTF-8
    encoding of ["100 m Straight"] (14 bytes), bytes 26-75 are zero padding
    (as are bytes 76-127), bytes 128-129 are [0x02 0x00], bytes 130-137 are
    the float32 pair [(0.0, 0.0)] and bytes 138-145 the float32 pair
    [(100.0, 0.0)]. *)
Theorem straight_100_file fn fs :
  generate_straight (PyInt 100) = Ok straight_100 /\
  write_trk fn (mkWorld straight_100 fs)
  = (Ok tt, mkWorld straight_100 (<[fn := straight_100_trk]> fs)) /\
  len straight_100_trk = 146 /\
  slice straight_100_trk 0 4 = list_byte_of_string "TRKF" /\
  encode_utf8 (str_lit "100 m Straight")
  = Ok (slice straight_100_trk 12 26) /\
  slice straight_100_trk 26 76 = replicate 50 x00 /\
  slice straight_100_trk 76 128 = replicate 52 x00 /\
  slice straight_100_trk 128 130 = [x02; x00] /\
  slice straight_100_trk 130 138
  = float32_le (PyFloat (S754_zero false)) ++ float32_le (PyFloat (S754_zero false)) /\
  slice straight_100_trk 138 146
  = float32_le (PyFloat hundred) ++ float32_le (PyFloat (S754_zero false)).
Proof.
  split; [reflexivity|]. split.
  - rewrite (write_trk_succeeds _ _ _ (list_byte_of_string "100 m Straight"));
      [|vm_compute; discriminate|reflexivity|repeat constructor].
    reflexivity.
  - repeat split; reflexivity.
Qed.

(** C6 as stated fails in one place: the name does not reach byte 26.
    The UTF-8 encoding of ["100 m Straight"] has 14 bytes; the 15 bytes
    12-26 of the file are that encoding followed by a zero byte. *)
Lemma straight_100_name_stops_at_byte_25 :
  let run := write_trk out_trk (mkWorld straight_100 ∅) in
  exists out encoded,
    run.1 = Ok tt /\
    content run.2 out_trk = Some out /\
    encode_utf8 (name straight_100) = Ok encoded /\
    len encoded = 14 /\
    slice out 12 27 = encoded ++ [x00] /\
    slice out 12 27 <> encoded /\
    out !! 26%nat = Some x00.
Proof.
  cbv zeta. rewrite write_trk_run.
  exists straight_100_trk, (list_byte_of_string "100 m Straight").
  repeat split; try reflexivity.
  vm_compute. discriminate.
Qed.

(** C7: whatever the length of the encoded name (shorter than, equal to or
    longer than 64 bytes), placing the name in a 128-byte buffer leaves a
    128-byte buffer; the header that a run writes is that buffer, it is
    exactly 128 bytes long, and the two bytes after it are the node
    count. *)
Theorem header_is_128_bytes t fn fs encoded :
  len (nodes t) <= MAX_NODES ->
  encode_utf8 (name t) = Ok encoded ->
  let name_bytes := slice_to encoded 64 in
  (forall buf : list byte,
     length buf = 128%nat ->
     length (slice_assign buf 12 (12 + len name_bytes) name_bytes) = 128%nat) /\
  exists header rest,
    header
    = slice_assign
        (slice_assign
           (slice_assign (slice_assign (bytearray 128) 0 4 b_TRKF) 4 8
              (le_bytes 4 0))
           8 12 (le_bytes 4 1))
        12 (12 + len name_bytes) name_bytes /\
    length header = 128%nat /\
    content (write_trk fn (mkWorld t fs)).2 fn
    = Some (header ++ le_bytes 2 (len (nodes t)) ++ rest) /\
    slice (header ++ le_bytes 2 (len (nodes t)) ++ rest) 128 130
    = le_bytes 2 (len (nodes t)).
Proof.
  intros Hn He name_bytes. split.
  - intros buf Hbuf. subst name_bytes.
    rewrite slice_to_nonneg by lia. change (Z.to_nat 64) with 64%nat.
    pose proof (len_take_64 encoded) as Hk. unfold len in *.
    replace (12 + Z.of_nat (length (take 64 encoded)))
      with (Z.of_nat (12 + length (take 64 encoded))) by lia.
    change 12 with (Z.of_nat 12) at 1.
    rewrite length_slice_assign; [assumption|lia|lia].
  - exists (trk_header encoded), (pack_nodes (nodes t)).1.
    split; [symmetry; apply header_with_name|].
    split; [apply length_trk_header|].
    split; [apply write_trk_header_written; assumption|].
    assert (Hh : len (trk_header encoded) = 128)
      by (unfold len; rewrite length_trk_header; reflexivity).
    rewrite slice_app_r by lia. rewrite Hh.
    change (128 - 128) with 0. change (130 - 128) with 2.
    rewrite slice_app_l by (unfold len; rewrite ?length_le_bytes; lia).
    apply slice_exact. unfold len at 1. rewrite length_le_bytes.
    reflexivity.
Qed.

Lemma header_is_128_bytes_witness :
  let encoded := replicate 70 x61 in
  let name_bytes := slice_to encoded 64 in
  (forall buf : list byte,
     length buf = 128%nat ->
     length (slice_assign buf 12 (12 + len name_bytes) name_bytes) = 128%nat) /\
  exists header rest,
    header
    = slice_assign
        (slice_assign
           (slice_assign (slice_assign (bytearray 128) 0 4 b_TRKF) 4 8
              (le_bytes 4 0))
           8 12 (le_bytes 4 1))
        12 (12 + len name_bytes) name_bytes /\
    length header = 128%nat /\
    content (write_trk out_trk (mkWorld long_name_track ∅)).2 out_trk
    = Some (header ++ le_bytes 2 (len (nodes long_name_track)) ++ rest) /\
    slice (header ++ le_bytes 2 (len (nodes long_name_track)) ++ rest) 128 130
    = le_bytes 2 (len (nodes long_name_track)).
Proof.
  apply (header_is_128_bytes long_name_track out_trk ∅ (replicate 70 x61)).
  - vm_compute. discriminate.
  - reflexivity.
Defined.




(** ** Determinism and frame *)

(** C9: writing the same Track twice, first to [fn1] and then to [fn2],
    ends both calls the same way and leaves the same bytes in the two
    files, whatever the file system held before. *)
Theorem write_trk_twice t fn1 fn2 fs :
  len (nodes t) <= MAX_NODES ->
  let run1 := write_trk fn1 (mkWorld t fs) in
  let run2 := write_trk fn2 run1.2 in
  run1.1 = run2.1 /\
  exists out,
    content run1.2 fn1 = Some out /\
    content run2.2 fn1 = Some out /\
    content run2.2 fn2 = Some out.
Proof.
  intros Hn. cbv zeta.
  rewrite (write_trk_accepted t fn1 fs Hn). cbn [fst snd].
  rewrite (write_trk_accepted t fn2 _ Hn). cbn [fst snd].
  split; [reflexivity|]. exists (trk_file t).
  unfold content. cbn [files].
  split; [apply lookup_insert_eq|].
  split; [|apply lookup_insert_eq].
  rewrite lookup_insert. case_decide; [reflexivity|apply lookup_insert_eq].
Qed.

Lemma write_trk_twice_witness :
  let fn1 := str_lit "a.trk" in
  let fn2 := str_lit "b.trk" in
  let run1 := write_trk fn1 (mkWorld straight_100 ∅) in
  let run2 := write_trk fn2 run1.2 in
  run1.1 = run2.1 /\
  exists out,
    content run1.2 fn1 = Some out /\
    content run2.2 fn1 = Some out /\
    content run2.2 fn2 = Some out.
Proof.
  apply (write_trk_twice straight_100 (str_lit "a.trk") (str_lit "b.trk") ∅).
  vm_compute. discriminate.
Defined.

(** Two runs on the same track agree even from unrelated file systems. *)
Lemma write_trk_same_bytes t fn1 fn2 fs1 fs2 :
  len (nodes t) <= MAX_NODES ->
  (write_trk fn1 (mkWorld t fs1)).1 = (write_trk fn2 (mkWorld t fs2)).1 /\
  content (write_trk fn1 (mkWorld t fs1)).2 fn1
  = content (write_trk fn2 (mkWorld t fs2)).2 fn2.
Proof.
  intros Hn. rewrite !write_trk_accepted by assumption.
  unfold content. cbn [fst snd files]. rewrite !lookup_insert_eq.
  split; reflexivity.
Qed.

Lemma keeps_self_ret {A} (a : A) : keeps_self (ret a).
Proof. intros w. reflexivity. Qed.

Lemma keeps_self_raise {A} e : keeps_self (@raise A e).
Proof. intros w. reflexivity. Qed.

Lemma keeps_self_lift {A} (r : result A) : keeps_self (lift r).
Proof. intros w. reflexivity. Qed.

Lemma keeps_self_name : keeps_self self_name.
Proof. intros w. reflexivity. Qed.

Lemma keeps_self_nodes : keeps_self self_nodes.
Proof. intros w. reflexivity. Qed.

Lemma keeps_self_open fn : keeps_self (open_wb fn).
Proof. intros w. reflexivity. Qed.

Lemma keeps_self_write f b : keeps_self (f_write f b).
Proof. intros w. reflexivity. Qed.

Lemma keeps_self_bind {A B} (m : M A) (k : A -> M B) :
  keeps_self m -> (forall a, keeps_self (k a)) -> keeps_self (bind m k).
Proof.
  intros Hm Hk w. unfold bind. specialize (Hm w).
  destruct (m w) as [[a|e] w1]; cbn [snd] in *; [|assumption].
  rewrite Hk. assumption.
Qed.

Lemma keeps_self_for_each {A} (l : list A) (body : A -> M unit) :
  (forall x, keeps_self (body x)) -> keeps_self (for_each l body).
Proof.
  intros Hb. induction l as [|x l IH]; cbn [for_each].
  - apply keeps_self_ret.
  - apply keeps_self_bind; [apply Hb|intros _; exact IH].
Qed.

(** [__init__] is a computation that does not keep [self]. *)
Example init_assigns name nodes w :
  self (__init__ name nodes w).2 = mkTrack name nodes.
Proof. reflexivity. Qed.

Example init_changes_self : ~ keeps_self (__init__ (str_lit "b") []).
Proof.
  intros H. specialize (H (mkWorld (mkTrack (str_lit "a") []) ∅)).
  discriminate H.
Qed.

Create HintDb frame.
#[local] Hint Resolve keeps_self_ret keeps_self_raise keeps_self_lift
  keeps_self_name keeps_self_nodes keeps_self_open keeps_self_write
  keeps_self_for_each : frame.

Ltac frame_step :=
  first [ apply keeps_self_bind; [solve [auto with frame]|intros ?]
        | solve [auto with frame] ].

Lemma write_trk_keeps_self fn : keeps_self (write_trk fn).
Proof.
  unfold write_trk. frame_step.
  destruct (_ >? _); [frame_step|].
  repeat frame_step.
  apply keeps_self_for_each. intros [x y]. repeat frame_step.
Qed.

(** C10: [write_trk] does not change the Track it is called on: after the
    call, whether it returned or raised, [name] and [nodes] of the object
    are what they were. *)
Theorem write_trk_does_not_mutate w fn :
  let w' := (write_trk fn w).2 in
  name (self w') = name (self w) /\ nodes (self w') = nodes (self w).
Proof.
  cbv zeta. rewrite (write_trk_keeps_self fn w). split; reflexivity.
Qed.

(** * Further properties of [write_trk] *)

(** ** How a call can end *)

Lemma encode_utf8_error s e : encode_utf8 s = Raise e -> e = UnicodeEncodeError.
Proof.
  induction s as [|c s IH]; cbn [encode_utf8]; [discriminate|].
  destruct (utf8_char c) as [b|e'] eqn:Ec; cbn [rbind].
  - destruct (encode_utf8 s) as [bs|e'']; cbn [rbind]; [discriminate|].
    intros [= <-]. apply IH. reflexivity.
  - intros [= <-]. revert Ec. unfold utf8_char.
    repeat match goal with |- context [if ?b then _ else _] => destruct b end;
      congruence.
Qed.

Lemma not_encodable_raises s :
  ~ encodable s -> encode_utf8 s = Raise UnicodeEncodeError.
Proof.
  intros H. destruct (encode_utf8 s) as [b|e] eqn:E.
  - exfalso. apply H. apply encodable_iff. rewrite E. reflexivity.
  - rewrite (encode_utf8_error _ _ E). reflexivity.
Qed.


(** The exception of a refused coordinate depends on its type. *)
Lemma pack_f_refusal v e : pack_f v = Raise e -> e = refusal_of v.
Proof.
  unfold pack_f, refusal_of. destruct v as [n|x].
  - destruct (rbind (as_double (PyInt n)) pack_float32); congruence.
  - unfold pack_float32. destruct (_ && _); congruence.
Qed.


Example pack_int_beyond_binary32 :
  struct_pack_ff (PyInt (2 ^ 128)) (PyInt 0) = Raise StructError /\
  struct_pack_ff (PyInt (2 ^ 1024)) (PyInt 0) = Raise StructError /\
  struct_pack_ff (PyFloat two_pow_130) (PyInt 0) = Raise OverflowError.
Proof. repeat split; reflexivity. Qed.

Example open_embedded_nul :
  write_trk_io plain_os nul_path (mkWorld straight_100 used_files)
  = (Raise (ValueError "embedded null byte"), mkWorld straight_100 used_files).
Proof. reflexivity. Qed.

Example open_missing_directory :
  write_trk_io small_os missing_dir_path (mkWorld straight_100 used_files)
  = (Raise (OSError "FileNotFoundError"), mkWorld straight_100 used_files).
Proof. reflexivity. Qed.

(** Writing through one spelling of a path changes what the other spelling
    reads. *)
Example two_spellings_one_file :
  resolve small_os dot_out_trk = resolve small_os out_trk /\
  content (write_trk_io small_os dot_out_trk (mkWorld straight_100 used_files)).2
    (resolve small_os out_trk)
  = Some straight_100_trk.
Proof. split; vm_compute; reflexivity. Qed.

(** A destination that opens and then takes no byte: the call ends with the
    exception of the operating system, although the Track is fine. *)
Example write_to_full_device :
  open_outcome small_os dev_full = None /\
  write_trk_io small_os dev_full (mkWorld straight_100 used_files)
  = (Raise (OSError "No space left on device"),
     mkWorld straight_100 (<[dev_full := []]> used_files)).
Proof. split; vm_compute; reflexivity. Qed.

(** X1: in an operating system environment [write_trk] returns normally
    exactly when five obstacles are passed: at most 65535 nodes, a
    destination that opens, a name without surrogates, nodes that all pack,
    and an operating system that takes the bytes of the file without a
    failing write, flush or close. *)
Theorem write_trk_returns_iff env t fn fs :
  (write_trk_io env fn (mkWorld t fs)).1 = Ok tt
  <-> len (nodes t) <= MAX_NODES /\ open_outcome env fn = None
      /\ encodable (name t) /\ Forall packable (nodes t)
      /\ write_fault env (resolve env fn) (trk_file t) = None.
Proof.
  split.
  - destruct (write_trk_io env fn (mkWorld t fs)) as [r w'] eqn:E. cbn [fst].
    intros ->.
    destruct (write_trk_io_returns _ _ _ _ _ E) as (Hn & Ho & Hp & b & Hb & _).
    split; [assumption|]. split; [assumption|].
    split; [apply encodable_iff; rewrite Hb; reflexivity|].
    split; [assumption|].
    rewrite (write_trk_io_accepted _ _ _ _ Hn Ho) in E.
    destruct (write_fault env (resolve env fn) (trk_file t)) as [[e rest]|];
      [discriminate|reflexivity].
  - intros (Hn & Ho & He & Hp & Hw). destruct (encodable_inv _ He) as [b Hb].
    rewrite (write_trk_io_accepted _ _ _ _ Hn Ho), Hw. cbn [fst].
    pose proof (write_trk_succeeds t fn fs b Hn Hb Hp) as Hs.
    rewrite (write_trk_accepted t fn fs Hn) in Hs. congruence.
Qed.

Lemma write_trk_returns_iff_witness :
  (write_trk_io small_os dot_out_trk (mkWorld straight_100 used_files)).1
  = Ok tt.
Proof.
  apply (write_trk_returns_iff small_os straight_100 dot_out_trk used_files).
  split; [vm_compute; discriminate|]. split; [reflexivity|].
  split; [reflexivity|]. split; [repeat constructor|]. reflexivity.
Defined.

(** X2: when the count is accepted but the name holds a surrogate, the call
    raises [UnicodeEncodeError] only after the file was opened: the
    destination is left empty, whatever it held before. *)
Theorem unencodable_name_empties_file t fn fs :
  len (nodes t) <= MAX_NODES ->
  ~ encodable (name t) ->
  write_trk fn (mkWorld t fs)
  = (Raise UnicodeEncodeError, mkWorld t (<[fn := []]> fs)).
Proof.
  intros Hn He. rewrite write_trk_accepted by assumption.
  unfold trk_result, trk_file. rewrite (not_encodable_raises _ He).
  reflexivity.
Qed.

Lemma unencodable_name_empties_file_witness :
  write_trk out_trk (mkWorld lone_surrogate_track used_files)
  = (Raise UnicodeEncodeError,
     mkWorld lone_surrogate_track (<[out_trk := []]> used_files)).
Proof.
  apply (unencodable_name_empties_file lone_surrogate_track out_trk used_files).
  - vm_compute. discriminate.
  - intros H. vm_compute in H. discriminate H.
Defined.



(** ** The rest of the file system *)

(** X4: however the call ends, no file other than the one that the
    destination path names is created, changed or removed; files are told
    apart by what their paths resolve to, not by the spelling of the
    paths. *)
Theorem write_trk_other_files env w fn id :
  id <> resolve env fn ->
  content (write_trk_io env fn w).2 id = content w id.
Proof.
  intros Hne. destruct w as [t fs].
  destruct (Z.gtb_spec (len (nodes t)) MAX_NODES) as [Hgt|Hle].
  - rewrite write_trk_io_run.
    destruct (Z.gtb_spec (len (nodes t)) MAX_NODES); [reflexivity|lia].
  - destruct (open_outcome env fn) as [e|] eqn:Ho.
    + rewrite write_trk_io_run, Ho. destruct (_ >? _); reflexivity.
    + rewrite (write_trk_io_accepted _ _ _ _ Hle Ho). unfold content.
      destruct (write_fault env (resolve env fn) (trk_file t)) as [[e rest]|];
        cbn [snd files]; apply lookup_insert_ne; congruence.
Qed.

Lemma write_trk_other_files_witness :
  content (write_trk_io small_os dot_out_trk
             (mkWorld straight_100 used_files)).2 other_trk
  = content (mkWorld straight_100 used_files) other_trk.
Proof.
  apply (write_trk_other_files small_os (mkWorld straight_100 used_files)
           dot_out_trk other_trk).
  intros H. vm_compute in H. discriminate H.
Defined.

(** X5: a call that gets past the limit check replaces the destination
    entirely: what the file held before has no influence on the result, and
    writing a second time to the same path changes nothing any more. *)
Theorem write_trk_overwrites t fn fs :
  len (nodes t) <= MAX_NODES ->
  (forall old,
     write_trk fn (mkWorld t (<[fn := old]> fs)) = write_trk fn (mkWorld t fs)) /\
  write_trk fn (write_trk fn (mkWorld t fs)).2 = write_trk fn (mkWorld t fs).
Proof.
  intros Hn. split.
  - intros old. rewrite !write_trk_accepted by assumption.
    rewrite insert_insert_eq. reflexivity.
  - rewrite (write_trk_accepted t fn fs Hn). cbn [snd].
    rewrite write_trk_accepted by assumption.
    rewrite insert_insert_eq. reflexivity.
Qed.

Lemma write_trk_overwrites_witness :
  (forall old,
     write_trk out_trk (mkWorld straight_100 (<[out_trk := old]> used_files))
     = write_trk out_trk (mkWorld straight_100 used_files)) /\
  write_trk out_trk (write_trk out_trk (mkWorld straight_100 used_files)).2
  = write_trk out_trk (mkWorld straight_100 used_files).
Proof.
  apply (write_trk_overwrites straight_100 out_trk used_files).
  vm_compute. discriminate.
Defined.

(** ** What the name field keeps of the name *)

Lemma encode_utf8_app s1 s2 :
  encode_utf8 (s1 ++ s2)
  = rbind (encode_utf8 s1) (fun b1 =>
    rbind (encode_utf8 s2) (fun b2 => Ok (b1 ++ b2))).
Proof.
  induction s1 as [|c s1 IH]; cbn [app encode_utf8 rbind].
  - destruct (encode_utf8 s2); reflexivity.
  - destruct (utf8_char c) as [b|]; cbn [rbind]; [|reflexivity].
    rewrite IH. destruct (encode_utf8 s1) as [b1|]; cbn [rbind]; [|reflexivity].
    destruct (encode_utf8 s2) as [b2|]; cbn [rbind]; [|reflexivity].
    rewrite app_assoc. reflexivity.
Qed.

Lemma trk_header_take_64 e1 e2 :
  take 64 e1 = take 64 e2 -> trk_header e1 = trk_header e2.
Proof. intros H. rewrite !trk_header_layout, H. reflexivity. Qed.

Lemma trk_header_trailing_zero e : trk_header (e ++ [x00]) = trk_header e.
Proof.
  rewrite !trk_header_layout. f_equal.
  destruct (Nat.le_gt_cases 64 (length e)) as [Hlong|Hshort].
  - rewrite take_app_le by assumption. reflexivity.
  - rewrite (take_ge (e ++ [x00])) by (rewrite length_app; simpl; lia).
    rewrite (take_ge e) by lia.
    rewrite length_app. cbn [length].
    replace (116 - length e)%nat with (S (116 - (length e + 1))) by lia.
    rewrite <- app_assoc. reflexivity.
Qed.

(** Outcome and file of a call depend on the name only through its
    header. *)
Lemma write_trk_same_header t1 t2 e1 e2 fn fs :
  nodes t1 = nodes t2 ->
  encode_utf8 (name t1) = Ok e1 ->
  encode_utf8 (name t2) = Ok e2 ->
  trk_header e1 = trk_header e2 ->
  (write_trk fn (mkWorld t1 fs)).1 = (write_trk fn (mkWorld t2 fs)).1 /\
  content (write_trk fn (mkWorld t1 fs)).2 fn
  = content (write_trk fn (mkWorld t2 fs)).2 fn.
Proof.
  intros Hn H1 H2 Hh. rewrite !write_trk_run.
  unfold write_trk_outcome, trk_result, trk_file, content.
  rewrite Hn, H1, H2, Hh.
  destruct (_ >? _); cbn [fst snd files]; [split; reflexivity|].
  rewrite !lookup_insert_eq. split; reflexivity.
Qed.

(** X6: two Tracks with the same nodes whose encoded names agree on their
    first 64 bytes are written identically: what comes after the 64th byte
    of the name leaves no trace. *)
Theorem names_agreeing_on_64_bytes t1 t2 e1 e2 fn fs :
  nodes t1 = nodes t2 ->
  encode_utf8 (name t1) = Ok e1 ->
  encode_utf8 (name t2) = Ok e2 ->
  slice_to e1 64 = slice_to e2 64 ->
  (write_trk fn (mkWorld t1 fs)).1 = (write_trk fn (mkWorld t2 fs)).1 /\
  content (write_trk fn (mkWorld t1 fs)).2 fn
  = content (write_trk fn (mkWorld t2 fs)).2 fn.
Proof.
  intros Hn H1 H2 H64. rewrite !slice_to_nonneg in H64 by lia.
  apply (write_trk_same_header t1 t2 e1 e2); try assumption.
  apply trk_header_take_64. exact H64.
Qed.

Lemma names_agreeing_on_64_bytes_witness :
  (write_trk out_trk (mkWorld long_name_track ∅)).1
  = (write_trk out_trk (mkWorld long_name_track' ∅)).1 /\
  content (write_trk out_trk (mkWorld long_name_track ∅)).2 out_trk
  = content (write_trk out_trk (mkWorld long_name_track' ∅)).2 out_trk.
Proof.
  apply (names_agreeing_on_64_bytes long_name_track long_name_track'
           (replicate 70 x61)
           (replicate 64 x61 ++ list_byte_of_string "xyz")).
  - reflexivity.
  - reflexivity.
  - reflexivity.
  - reflexivity.
Defined.

(** X7: a NUL character at the end of the name is not stored: the Track
    named [s + "\0"] is written exactly as the Track named [s], whatever
    the length of [s] and however the call ends. *)
Theorem trailing_nul_is_lost t fn fs :
  let t' := mkTrack (name t ++ [0]) (nodes t) in
  (write_trk fn (mkWorld t fs)).1 = (write_trk fn (mkWorld t' fs)).1 /\
  content (write_trk fn (mkWorld t fs)).2 fn
  = content (write_trk fn (mkWorld t' fs)).2 fn.
Proof.
  cbv zeta. destruct (encode_utf8 (name t)) as [e|err] eqn:E.
  - apply (write_trk_same_header _ _ e (e ++ [x00])); try assumption.
    + reflexivity.
    + cbn [name]. rewrite encode_utf8_app, E. reflexivity.
    + symmetry. apply trk_header_trailing_zero.
  - rewrite !write_trk_run.
    unfold write_trk_outcome, trk_result, trk_file, content. cbn [name nodes].
    rewrite encode_utf8_app, E. cbn [rbind].
    destruct (_ >? _); cbn [fst snd files]; [split; reflexivity|].
    rewrite !lookup_insert_eq. split; reflexivity.
Qed.

Lemma utf8_char_length c b :
  utf8_char c = Ok b -> (1 <= length b <= 4)%nat.
Proof.
  unfold utf8_char.
  repeat match goal with |- context [if ?b then _ else _] => destruct b end;
    intros [= <-]; simpl; lia.
Qed.

Lemma encode_utf8_length s b :
  encode_utf8 s = Ok b -> len s <= len b <= 4 * len s.
Proof.
  unfold len. revert b; induction s as [|c s IH]; intros b; cbn [encode_utf8].
  - intros [= <-]. simpl. lia.
  - destruct (utf8_char c) as [bc|] eqn:Ec; cbn [rbind]; [|discriminate].
    destruct (encode_utf8 s) as [bs|]; cbn [rbind]; [|discriminate].
    intros [= <-]. specialize (IH bs eq_refl).
    apply utf8_char_length in Ec.
    rewrite length_app. cbn [length]. lia.
Qed.

Lemma encode_utf8_ascii s :
  Forall (fun c => 0 <= c < 0x80) s -> encode_utf8 s = Ok (map byte_of_Z s).
Proof.
  induction 1 as [|c s Hc _ IH]; [reflexivity|].
  cbn [encode_utf8 map]. rewrite IH. unfold utf8_char.
  destruct (Z.ltb_spec c 0); [lia|].
  destruct (Z.ltb_spec c 0x80); [|lia].
  reflexivity.
Qed.

(** X8: the encoded name has between one and four bytes per character.
    So a name of at most 16 characters always fits the 64-byte field, a
    name of more than 64 characters never does, and an ASCII name takes
    one byte per character. *)
Theorem name_bytes_and_characters s encoded :
  encode_utf8 s = Ok encoded ->
  len s <= len encoded <= 4 * len s /\
  (len s <= 16 -> slice_to encoded 64 = encoded) /\
  (64 < len s -> len (slice_to encoded 64) = 64 /\ slice_to encoded 64 <> encoded) /\
  (Forall (fun c => 0 <= c < 0x80) s -> encoded = map byte_of_Z s).
Proof.
  intros He. pose proof (encode_utf8_length _ _ He) as Hl.
  split; [assumption|]. rewrite slice_to_nonneg by lia.
  change (Z.to_nat 64) with 64%nat. unfold len in *.
  split; [intros H16; apply take_ge; lia|]. split.
  - intros H64.
    assert (Hk : length (take 64 encoded) = 64%nat)
      by (rewrite length_take; lia).
    split; [rewrite Hk; reflexivity|].
    intros Heq. rewrite Heq in Hk. lia.
  - intros Ha. rewrite (encode_utf8_ascii _ Ha) in He. congruence.
Qed.

Lemma name_bytes_and_characters_witness :
  let s := name emoji_name_track in
  let encoded := concat (replicate 16 [xf0; x9f; x98; x80]) in
  len s <= len encoded <= 4 * len s /\
  (len s <= 16 -> slice_to encoded 64 = encoded) /\
  (64 < len s -> len (slice_to encoded 64) = 64 /\ slice_to encoded 64 <> encoded) /\
  (Forall (fun c => 0 <= c < 0x80) s -> encoded = map byte_of_Z s).
Proof.
  apply (name_bytes_and_characters (name emoji_name_track)
           (concat (replicate 16 [xf0; x9f; x98; x80]))).
  reflexivity.
Defined.

(** ** Coordinates that are binary32 numbers *)

Lemma digits2_pos_bounds m :
  2 ^ (Z.pos (digits2_pos m) - 1) <= Z.pos m < 2 ^ Z.pos (digits2_pos m).
Proof.
  induction m as [m IH|m IH|]; cbn [digits2_pos].
  - rewrite Pos2Z.inj_succ.
    replace (Z.succ (Z.pos (digits2_pos m)) - 1)
      with (Z.succ (Z.pos (digits2_pos m) - 1)) by lia.
    rewrite !Z.pow_succ_r by lia. lia.
  - rewrite Pos2Z.inj_succ.
    replace (Z.succ (Z.pos (digits2_pos m)) - 1)
      with (Z.succ (Z.pos (digits2_pos m) - 1)) by lia.
    rewrite !Z.pow_succ_r by lia. lia.
  - simpl. lia.
Qed.

Lemma digits2_pos_iter m p :
  Z.pos (digits2_pos (Pos.iter xO m p)) = Z.pos (digits2_pos m) + Z.pos p.
Proof.
  induction p as [|p IH] using Pos.peano_ind.
  - cbn [Pos.iter digits2_pos]. lia.
  - rewrite Pos.iter_succ. cbn [digits2_pos]. lia.
Qed.

Lemma iter_pos_iter {A} (f : A -> A) p x : SpecFloat.iter_pos f p x = Pos.iter f x p.
Proof.
  revert x; induction p as [p IH|p IH|]; intros x; cbn [SpecFloat.iter_pos Pos.iter].
  - rewrite !IH, !Pos.iter_swap. reflexivity.
  - rewrite !IH. reflexivity.
  - reflexivity.
Qed.

(** Shifting out [p] zero bits is exact. *)
Lemma shr_iter_zero_bits m p :
  SpecFloat.iter_pos shr_1 p (Build_shr_record (Z.pos (Pos.iter xO m p)) false false)
  = Build_shr_record (Z.pos m) false false.
Proof.
  rewrite iter_pos_iter. induction p as [|p IH] using Pos.peano_ind.
  - reflexivity.
  - rewrite Pos.iter_succ_r. rewrite (Pos.iter_succ p positive xO m).
    cbn [shr_1 orb].
    exact IH.
Qed.

(** Rounding a binary32 number given at a finer scale gives it back. *)
Lemma binary_round_rescaled s m e k :
  bounded 24 128 m e = true ->
  binary_round 24 128 s (Pos.shiftl m k) (e - Z.of_N k) = S754_finite s m e.
Proof.
  intros Hb. destruct k as [|p].
  { change (Pos.shiftl m 0) with m. change (Z.of_N 0) with 0.
    rewrite Z.sub_0_r.
    apply binary_round_bounded. exact Hb. }
  change (Pos.shiftl m (N.pos p)) with (Pos.iter xO m p).
  change (Z.of_N (N.pos p)) with (Z.pos p).
  pose proof Hb as Hb'. unfold bounded, canonical_mantissa in Hb'.
  apply andb_prop in Hb' as [Hc He]. apply Z.eqb_eq in Hc.
  assert (Hf : fexp 24 128 (Z.pos (digits2_pos (Pos.iter xO m p)) + (e - Z.pos p)) = e).
  { rewrite digits2_pos_iter.
    replace (Z.pos (digits2_pos m) + Z.pos p + (e - Z.pos p))
      with (Z.pos (digits2_pos m) + e) by lia.
    exact Hc. }
  unfold binary_round, shl_align. rewrite Hf.
  replace (e - (e - Z.pos p)) with (Z.pos p) by lia.
  unfold binary_round_aux, shr_fexp at 1. cbn [Zdigits2]. rewrite Hf.
  replace (e - (e - Z.pos p)) with (Z.pos p) by lia.
  cbn [shr shr_record_of_loc]. rewrite shr_iter_zero_bits.
  replace (e - Z.pos p + Z.pos p) with e by lia.
  cbn [shr_m loc_of_shr_record round_nearest_even].
  unfold shr_fexp. cbn [Zdigits2]. rewrite Hc, Z.sub_diag.
  cbn [shr shr_record_of_loc shr_m]. rewrite He. reflexivity.
Qed.

Lemma bits_fields (S E f : Z) :
  0 <= S <= 1 -> 0 <= E < 256 -> 0 <= f < 2 ^ 23 ->
  let b := S * 2 ^ 31 + E * 2 ^ 23 + f in
  0 <= b < 2 ^ 32 /\
  (2 ^ 31 <=? b) = (S =? 1) /\
  (b / 2 ^ 23) mod 256 = E /\
  b mod 2 ^ 23 = f.
Proof.
  intros HS HE Hf b.
  assert (Hb : b = (S * 256 + E) * 2 ^ 23 + f) by (subst b; lia).
  split; [subst b; lia|]. split.
  { destruct (Z.leb_spec (2 ^ 31) b), (Z.eqb_spec S 1); subst b; lia. }
  split.
  - rewrite Hb, Z.div_add_l by lia. rewrite Z.div_small by lia.
    rewrite Z.add_0_r, Z.add_comm, Z.mod_add by lia.
    apply Z.mod_small; lia.
  - rewrite Hb, Z.add_comm, Z.mod_add by lia. apply Z.mod_small; lia.
Qed.

Lemma sign_bit_field s : sign_bit s = (if s then 1 else 0) * 2 ^ 31.
Proof. destruct s; reflexivity. Qed.

(** The pattern of a binary32 value fits 32 bits and reads back as the
    value. *)
Lemma float32_of_bits_of_float32 x :
  valid_binary 24 128 x = true ->
  0 <= bits_of_float32 x < 2 ^ 32 /\
  float32_of_bits (bits_of_float32 x) = x.
Proof.
  destruct x as [s|s| |s m e]; cbn [valid_binary].
  - intros _. destruct s; split; (reflexivity || (vm_compute; split; congruence)).
  - intros _. destruct s; split; (reflexivity || (vm_compute; split; congruence)).
  - intros _. split; (reflexivity || (vm_compute; split; congruence)).
  - intros Hb. unfold bounded, canonical_mantissa, fexp, emin in Hb.
    apply andb_prop in Hb as [Hc He].
    apply Z.eqb_eq in Hc. apply Z.leb_le in He.
    pose proof (digits2_pos_bounds m) as Hd.
    set (d := Z.pos (digits2_pos m)) in *.
    cbn [bits_of_float32]. rewrite sign_bit_field.
    destruct (Z.ltb_spec (Z.pos m) (2 ^ 23)) as [Hsub|Hnorm].
    + assert (Hd23 : d <= 23).
      { destruct (Z.le_gt_cases d 23) as [|Hgt]; [assumption|].
        assert (2 ^ 23 <= 2 ^ (d - 1)) by (apply Z.pow_le_mono_r; lia). lia. }
      assert (He149 : e = -149) by lia.
      destruct (bits_fields (if s then 1 else 0) 0 (Z.pos m)) as (Hr & Hs & HE & Hf);
        [destruct s; lia|lia|lia|].
      cbv zeta in Hr, Hs, HE, Hf. rewrite Z.mul_0_l, Z.add_0_r in *.
      split; [exact Hr|].
      unfold float32_of_bits. rewrite Hs, HE, Hf. cbn [Z.eqb].
      subst e. destruct s; reflexivity.
    + assert (Hd24 : d = 24).
      { assert (24 <= d).
        { destruct (Z.le_gt_cases 24 d) as [|Hlt]; [assumption|].
          assert (2 ^ d <= 2 ^ 23) by (apply Z.pow_le_mono_r; lia). lia. }
        lia. }
      rewrite Hd24 in Hd. change (2 ^ (24 - 1)) with (2 ^ 23) in Hd.
      assert (Hlo : -149 <= e) by lia.
      replace ((if s then 1 else 0) * 2 ^ 31 + (e + 150) * 2 ^ 23
               + (Z.pos m - 2 ^ 23))
        with ((if s then 1 else 0) * 2 ^ 31 + (e + 150) * 2 ^ 23
              + (Z.pos m - 2 ^ 23)) by reflexivity.
      destruct (bits_fields (if s then 1 else 0) (e + 150) (Z.pos m - 2 ^ 23))
        as (Hr & Hs & HE & Hf);
        [destruct s; lia|lia|change (2 ^ 24) with (2 * 2 ^ 23) in Hd; lia|].
      cbv zeta in Hr, Hs, HE, Hf. split; [exact Hr|].
      unfold float32_of_bits. rewrite Hs, HE, Hf.
      destruct (Z.eqb_spec (e + 150) 0); [lia|].
      destruct (Z.eqb_spec (e + 150) 255); [lia|].
      replace (Z.pos m - 2 ^ 23 + 2 ^ 23) with (Z.pos m) by lia.
      replace (e + 150 - 150) with e by lia.
      destruct s; reflexivity.
Qed.

Lemma from_bytes_le_bytes_4 n :
  0 <= n < 2 ^ 32 -> from_bytes_little (le_bytes 4 n) = n.
Proof.
  intros Hn. rewrite from_bytes_le_bytes by lia.
  change (256 ^ Z.of_nat 4) with (2 ^ 32). apply Z.mod_small. exact Hn.
Qed.

(** X9: a coordinate whose value is a binary32 number is never refused by
    the packing, takes four bytes, and these bytes read back as exactly
    that number: nothing is rounded away. *)
Theorem binary32_coordinate_round_trip x y :
  binary32_form x y ->
  exists b,
    pack_f (PyFloat x) = Ok b /\ length b = 4%nat /\
    float32_of_bits (from_bytes_little b) = y.
Proof.
  intros [Hv Hxy].
  destruct (float32_of_bits_of_float32 y Hv) as [Hr Hd].
  exists (le_bytes 4 (bits_of_float32 y)).
  split; [|split; [apply length_le_bytes|]].
  - destruct x as [sx|sx| |sx mx ex].
    + subst y. reflexivity.
    + subst y. reflexivity.
    + subst y. reflexivity.
    + destruct y as [s|s| |s m e]; try discriminate.
      destruct Hxy as (-> & k & -> & ->).
      unfold pack_f, as_double, pack_float32. cbn [rbind float32_of_float].
      rewrite (binary_round_rescaled _ _ _ _ Hv). reflexivity.
  - rewrite from_bytes_le_bytes_4 by assumption. exact Hd.
Qed.

Lemma binary32_coordinate_round_trip_witness :
  exists b,
    pack_f (PyFloat hundred) = Ok b /\ length b = 4%nat /\
    float32_of_bits (from_bytes_little b) = hundred32.
Proof.
  apply (binary32_coordinate_round_trip hundred hundred32).
  split; [reflexivity|].
  split; [reflexivity|]. exists 29%N. split; reflexivity.
Defined.

(** ** What a file determines *)

Lemma node_bytes_flat_inj ns1 ns2 :
  flat_map node_bytes ns1 = flat_map node_bytes ns2 ->
  map node_bytes ns1 = map node_bytes ns2.
Proof.
  revert ns2; induction ns1 as [|nd1 ns1 IH]; intros [|nd2 ns2];
    cbn [flat_map map]; intros H.
  - reflexivity.
  - apply (f_equal length) in H. rewrite length_app, length_node_bytes in H.
    simpl in H. lia.
  - apply (f_equal length) in H. rewrite length_app, length_node_bytes in H.
    simpl in H. lia.
  - apply app_inj_1 in H as [H1 H2];
      [|rewrite !length_node_bytes; reflexivity].
    rewrite H1, (IH _ H2). reflexivity.
Qed.

(** X10: two calls that return normally and leave the same bytes were
    given Tracks with the same number of nodes and, node for node, the
    same eight bytes: the file determines the count and every packed
    node. *)
Theorem same_file_same_nodes t1 t2 fn1 fn2 fs1 fs2 out :
  (write_trk fn1 (mkWorld t1 fs1)).1 = Ok tt ->
  (write_trk fn2 (mkWorld t2 fs2)).1 = Ok tt ->
  content (write_trk fn1 (mkWorld t1 fs1)).2 fn1 = Some out ->
  content (write_trk fn2 (mkWorld t2 fs2)).2 fn2 = Some out ->
  len (nodes t1) = len (nodes t2) /\
  from_bytes_little (slice out 128 130) = len (nodes t1) /\
  map node_bytes (nodes t1) = map node_bytes (nodes t2).
Proof.
  intros R1 R2 C1 C2.
  destruct (write_trk fn1 (mkWorld t1 fs1)) as [r1 w1] eqn:E1.
  destruct (write_trk fn2 (mkWorld t2 fs2)) as [r2 w2] eqn:E2.
  cbn [fst snd] in *. subst r1 r2.
  destruct (write_trk_returns _ _ _ _ E1) as (Hn1 & [e1 He1] & Hp1).
  destruct (write_trk_returns _ _ _ _ E2) as (Hn2 & [e2 He2] & Hp2).
  rewrite (write_trk_succeeds _ _ _ e1 Hn1 He1 Hp1) in E1.
  rewrite (write_trk_succeeds _ _ _ e2 Hn2 He2 Hp2) in E2.
  assert (Hw1 : files w1 = <[fn1 := trk_header e1 ++ le_bytes 2 (len (nodes t1))
                               ++ flat_map node_bytes (nodes t1)]> fs1)
    by (injection E1 as <-; reflexivity).
  assert (Hw2 : files w2 = <[fn2 := trk_header e2 ++ le_bytes 2 (len (nodes t2))
                               ++ flat_map node_bytes (nodes t2)]> fs2)
    by (injection E2 as <-; reflexivity).
  unfold content in C1, C2. rewrite Hw1, lookup_insert_eq in C1.
  rewrite Hw2, lookup_insert_eq in C2.
  assert (Heq : trk_header e1 ++ le_bytes 2 (len (nodes t1))
                  ++ flat_map node_bytes (nodes t1)
                = trk_header e2 ++ le_bytes 2 (len (nodes t2))
                  ++ flat_map node_bytes (nodes t2)) by congruence.
  apply app_inj_1 in Heq as [_ Heq];
    [|rewrite !length_trk_header; reflexivity].
  apply app_inj_1 in Heq as [Hc Hb];
    [|rewrite !length_le_bytes; reflexivity].
  assert (Hfit : forall t, len (nodes t) <= MAX_NODES ->
            from_bytes_little (le_bytes 2 (len (nodes t))) = len (nodes t)).
  { intros t Ht. rewrite from_bytes_le_bytes by (unfold len; lia).
    apply Z.mod_small. unfold MAX_NODES, len in *.
    change (256 ^ Z.of_nat 2) with 65536. lia. }
  assert (Hlen : len (nodes t1) = len (nodes t2)).
  { rewrite <- (Hfit t1 Hn1), <- (Hfit t2 Hn2), Hc. reflexivity. }
  split; [exact Hlen|]. split; [|apply node_bytes_flat_inj; exact Hb].
  assert (Hout : out = trk_header e1 ++ le_bytes 2 (len (nodes t1))
                        ++ flat_map node_bytes (nodes t1)) by congruence.
  rewrite Hout.
  assert (Hh : len (trk_header e1) = 128)
    by (unfold len; rewrite length_trk_header; reflexivity).
  rewrite slice_app_r by lia. rewrite Hh.
  change (128 - 128) with 0. change (130 - 128) with 2.
  rewrite slice_app_l by (unfold len; rewrite ?length_le_bytes; lia).
  rewrite slice_exact
    by (unfold len at 1; rewrite length_le_bytes; reflexivity).
  apply Hfit. exact Hn1.
Qed.

Lemma same_file_same_nodes_witness :
  len (nodes straight_100) = len (nodes straight_100_alias) /\
  from_bytes_little (slice straight_100_trk 128 130) = len (nodes straight_100) /\
  map node_bytes (nodes straight_100) = map node_bytes (nodes straight_100_alias).
Proof.
  apply (same_file_same_nodes straight_100 straight_100_alias out_trk other_trk
           ∅ used_files straight_100_trk).
  - vm_compute. reflexivity.
  - vm_compute. reflexivity.
  - vm_compute. reflexivity.
  - vm_compute. reflexivity.
Defined.

(** * Properties of [generate_straight] *)

Lemma digits_of_uint_ascii u :
  Forall (fun c => 0 <= c < 0x80) (digits_of_uint u).
Proof. induction u; cbn [digits_of_uint]; constructor; (lia || assumption). Qed.

Lemma sign_str_ascii s : Forall (fun c => 0 <= c < 0x80) (sign_str s).
Proof. destruct s; repeat constructor; simpl; lia. Qed.

Lemma str_lit_tail_ascii :
  Forall (fun c => 0 <= c < 0x80) (str_lit " m Straight").
Proof. repeat constructor; simpl; lia. Qed.

Lemma format_float_0f_ascii x :
  Forall (fun c => 0 <= c < 0x80) (format_float_0f x).
Proof.
  destruct x as [s|s| |s m e]; cbn [format_float_0f].
  - apply Forall_app. split; [apply sign_str_ascii|].
    repeat constructor; simpl; lia.
  - apply Forall_app. split; [apply sign_str_ascii|].
    repeat constructor; simpl; lia.
  - repeat constructor; simpl; lia.
  - apply Forall_app. split; [apply sign_str_ascii|].
    apply digits_of_uint_ascii.
Qed.

Lemma ascii_encodable s : Forall (fun c => 0 <= c < 0x80) s -> encodable s.
Proof.
  intros H. apply encodable_iff. rewrite (encode_utf8_ascii _ H). reflexivity.
Qed.

(** What [generate_straight] returns when it returns. *)
Lemma generate_straight_returns length t :
  generate_straight length = Ok t ->
  exists s,
    format_0f length = Ok s /\
    Forall (fun c => 0 <= c < 0x80) s /\
    t = mkTrack (s ++ str_lit " m Straight")
          [(PyInt 0, PyInt 0); (length, PyInt 0)].
Proof.
  unfold generate_straight.
  destruct (format_0f length) as [s|] eqn:Ef; cbn [rbind]; [|discriminate].
  intros [= <-]. exists s. split; [reflexivity|]. split; [|reflexivity].
  unfold format_0f in Ef. destruct length as [n|x].
  - destruct (is_inf (float_of_int n)); [discriminate|].
    injection Ef as <-. apply format_float_0f_ascii.
  - injection Ef as <-. apply format_float_0f_ascii.
Qed.

(** X11: a Track returned by [generate_straight] has the two nodes
    [(0, 0)] and [(length, 0)] and an ASCII name, so [write_trk] never
    rejects its count or its name.  Written to a destination that opens
    and takes every write, it gives a 146-byte file and a normal return
    when the length packs as a binary32; otherwise the call raises
    [OverflowError] for a float length and [struct.error] for an int length
    and leaves 138 bytes: header, count 2 and the first node. *)
Theorem generate_straight_written env length t fn fs :
  generate_straight length = Ok t ->
  open_outcome env fn = None ->
  (forall data, write_fault env (resolve env fn) data = None) ->
  nodes t = [(PyInt 0, PyInt 0); (length, PyInt 0)] /\
  encodable (name t) /\
  exists out,
    content (write_trk_io env fn (mkWorld t fs)).2 (resolve env fn) = Some out /\
    from_bytes_little (slice out 128 130) = 2 /\
    if is_ok (pack_f length)
    then (write_trk_io env fn (mkWorld t fs)).1 = Ok tt /\ len out = 146
    else (write_trk_io env fn (mkWorld t fs)).1 = Raise (refusal_of length)
         /\ len out = 138.
Proof.
  intros Hg Ho Hw.
  destruct (generate_straight_returns _ _ Hg) as (s & Hf & Hs & Ht).
  assert (Hnodes : nodes t = [(PyInt 0, PyInt 0); (length, PyInt 0)])
    by (subst t; reflexivity).
  assert (Henc : encodable (name t)).
  { subst t. cbn [name]. apply ascii_encodable, Forall_app.
    split; [assumption|apply str_lit_tail_ascii]. }
  split; [assumption|]. split; [assumption|].
  destruct (encodable_inv _ Henc) as [encoded He].
  assert (Hn : len (nodes t) <= MAX_NODES) by (rewrite Hnodes; vm_compute; discriminate).
  assert (Hh : len (trk_header encoded) = 128)
    by (unfold len; rewrite length_trk_header; reflexivity).
  rewrite (write_trk_io_opens _ _ _ _ Ho Hw).
  rewrite write_trk_accepted by assumption.
  unfold trk_result, trk_file, content. cbn [fst snd files].
  rewrite He, lookup_insert_eq, Hnodes.
  eexists. split; [reflexivity|].
  split.
  { rewrite slice_app_r by lia. rewrite Hh.
    change (128 - 128) with 0. change (130 - 128) with 2.
    rewrite slice_app_l by (unfold len; rewrite ?length_le_bytes; lia).
    reflexivity. }
  cbn [pack_nodes]. change (struct_pack_ff (PyInt 0) (PyInt 0))
    with (Ok (node_bytes (PyInt 0, PyInt 0))).
  unfold struct_pack_ff.
  destruct (pack_f length) as [b|e] eqn:Ep; cbn [rbind is_ok fst snd].
  - change (pack_f (PyInt 0)) with (Ok (float32_le (PyInt 0))). cbn [rbind fst snd].
    split; [reflexivity|].
    apply pack_f_ok in Ep. subst b.
    unfold len. rewrite !length_app, length_trk_header, !length_le_bytes,
      length_node_bytes. unfold float32_le. rewrite !length_le_bytes.
    reflexivity.
  - rewrite (pack_f_refusal _ _ Ep).
    split; [reflexivity|].
    unfold len. rewrite !length_app, length_trk_header, !length_le_bytes,
      length_node_bytes. reflexivity.
Qed.

Lemma generate_straight_written_witness :
  let length := PyInt (2 ^ 130) in
  let t := mkTrack (str_lit "1361129467683753853853498429727072845824 m Straight")
             [(PyInt 0, PyInt 0); (length, PyInt 0)] in
  nodes t = [(PyInt 0, PyInt 0); (length, PyInt 0)] /\
  encodable (name t) /\
  exists out,
    content (write_trk_io plain_os out_trk (mkWorld t ∅)).2
      (resolve plain_os out_trk) = Some out /\
    from_bytes_little (slice out 128 130) = 2 /\
    if is_ok (pack_f length)
    then (write_trk_io plain_os out_trk (mkWorld t ∅)).1 = Ok tt /\ len out = 146
    else (write_trk_io plain_os out_trk (mkWorld t ∅)).1 = Raise (refusal_of length)
         /\ len out = 138.
Proof.
  apply (generate_straight_written plain_os (PyInt (2 ^ 130))).
  - vm_compute. reflexivity.
  - reflexivity.
  - intros data. reflexivity.
Defined.

(** ** Integer lengths *)

Lemma binary_round_aux_bounded prec emax s m e :
  bounded prec emax m e = true ->
  binary_round_aux prec emax s (Z.pos m) e loc_Exact = S754_finite s m e.
Proof.
  unfold bounded, canonical_mantissa. intros H.
  apply andb_prop in H as [Hc He]. apply Z.eqb_eq in Hc.
  unfold binary_round_aux, shr_fexp. cbn [Zdigits2].
  rewrite Hc, Z.sub_diag. cbn [shr shr_record_of_loc shr_m loc_of_shr_record
    round_nearest_even Zdigits2].
  rewrite Hc, Z.sub_diag. cbn [shr shr_m]. rewrite He. reflexivity.
Qed.

Lemma pos_iter_xO_value m p :
  Z.pos (Pos.iter xO m p) = Z.pos m * 2 ^ Z.pos p.
Proof.
  induction p as [|p IH] using Pos.peano_ind.
  - cbn [Pos.iter]. lia.
  - rewrite Pos.iter_succ, Pos2Z.inj_succ, Z.pow_succ_r by lia.
    assert (H : Z.pos (Pos.iter xO m p)~0 = 2 * Z.pos (Pos.iter xO m p)) by lia.
    rewrite H, IH. lia.
Qed.

(** An int below [2^53] in magnitude is a float: the conversion only
    rescales it to a 53-bit mantissa. *)
Lemma binary_round_small_int s m :
  Z.pos m < 2 ^ 53 ->
  exists k : N, binary_round 53 1024 s m 0
                = S754_finite s (Pos.shiftl m k) (- Z.of_N k) /\
                Z.of_N k = 53 - Z.pos (digits2_pos m).
Proof.
  intros Hm. pose proof (digits2_pos_bounds m) as Hd.
  set (d := Z.pos (digits2_pos m)) in *.
  assert (Hd53 : 1 <= d <= 53).
  { split; [subst d; lia|].
    destruct (Z.le_gt_cases d 53) as [|Hgt]; [assumption|].
    assert (2 ^ 53 <= 2 ^ (d - 1)) by (apply Z.pow_le_mono_r; lia). lia. }
  assert (Hf : fexp 53 1024 (d + 0) = d - 53) by (unfold fexp, emin; lia).
  unfold binary_round, shl_align. fold d. rewrite Hf.
  replace (d - 53 - 0) with (d - 53) by lia.
  destruct (d - 53) as [|q|q] eqn:Eq.
  - exists 0%N. split; [|fold d; lia].
    change (Pos.shiftl m 0) with m. change (- Z.of_N 0) with 0.
    apply binary_round_aux_bounded.
    unfold bounded, canonical_mantissa. fold d. rewrite Hf. reflexivity.
  - lia.
  - exists (N.pos q). split; [|fold d; lia].
    change (Pos.shiftl m (N.pos q)) with (Pos.iter xO m q).
    change (- Z.of_N (N.pos q)) with (Z.neg q).
    apply binary_round_aux_bounded.
    unfold bounded, canonical_mantissa. rewrite digits2_pos_iter. fold d.
    apply andb_true_intro. split.
    + apply Z.eqb_eq. unfold fexp, emin. lia.
    + apply Z.leb_le. lia.
Qed.

Lemma round_half_even_rescaled m k :
  round_half_even (Pos.shiftl m k) (- Z.of_N k) = Z.pos m.
Proof.
  destruct k as [|p].
  - change (Pos.shiftl m 0) with m. change (- Z.of_N 0) with 0.
    unfold round_half_even. cbn [Z.leb Z.compare]. lia.
  - change (Pos.shiftl m (N.pos p)) with (Pos.iter xO m p).
    change (- Z.of_N (N.pos p)) with (Z.neg p).
    unfold round_half_even. cbn [Z.leb Z.compare].
    change (- Z.neg p) with (Z.pos p).
    rewrite pos_iter_xO_value.
    assert (Hp : 0 < 2 ^ Z.pos p) by (apply Z.pow_pos_nonneg; lia).
    rewrite Z.div_mul, Z.mod_mul by lia.
    destruct (Z.compare_spec (2 * 0) (2 ^ Z.pos p)); [lia|reflexivity|lia].
Qed.

(** X12: for an int [n] with [-2^53 < n < 2^53], [generate_straight(n)]
    returns the Track named by the decimal numeral of [n], with its sign,
    followed by [" m Straight"], with the nodes [(0, 0)] and [(n, 0)]. *)
Theorem generate_straight_int_name n :
  - 2 ^ 53 < n < 2 ^ 53 ->
  generate_straight (PyInt n)
  = Ok (mkTrack
          ((if n <? 0 then str_lit "-" else []) ++ decimal (Z.abs n)
             ++ str_lit " m Straight")
          [(PyInt 0, PyInt 0); (PyInt n, PyInt 0)]).
Proof.
  intros Hn. unfold generate_straight, format_0f, float_of_int.
  destruct n as [|m|m].
  - reflexivity.
  - cbn [binary_normalize].
    destruct (binary_round_small_int false m) as (k & -> & _); [lia|].
    cbn [is_inf rbind format_float_0f sign_str].
    rewrite round_half_even_rescaled. reflexivity.
  - cbn [binary_normalize].
    destruct (binary_round_small_int true m) as (k & -> & _); [lia|].
    cbn [is_inf rbind format_float_0f sign_str].
    rewrite round_half_even_rescaled. cbn [Z.ltb Z.compare Z.abs].
    rewrite <- app_assoc. reflexivity.
Qed.

Lemma generate_straight_int_name_witness :
  generate_straight (PyInt (-250))
  = Ok (mkTrack (str_lit "-250 m Straight")
          [(PyInt 0, PyInt 0); (PyInt (-250), PyInt 0)]).
Proof.
  apply (generate_straight_int_name (-250)). lia.
Defined.

(** ** Integer coordinates *)

Lemma shiftl_value m k : Z.pos (Pos.shiftl m k) = Z.pos m * 2 ^ Z.of_N k.
Proof.
  destruct k as [|p].
  - change (Pos.shiftl m 0) with m. change (Z.of_N 0) with 0. lia.
  - apply pos_iter_xO_value.
Qed.

Lemma digits2_pos_shiftl m k :
  Z.pos (digits2_pos (Pos.shiftl m k)) = Z.pos (digits2_pos m) + Z.of_N k.
Proof.
  destruct k as [|p].
  - change (Pos.shiftl m 0) with m. change (Z.of_N 0) with 0. lia.
  - apply digits2_pos_iter.
Qed.

Lemma shiftl_shiftl m j i :
  Pos.shiftl (Pos.shiftl m j) i = Pos.shiftl m (j + i).
Proof.
  apply Pos2Z.inj. rewrite !shiftl_value, N2Z.inj_add, Z.pow_add_r by lia.
  lia.
Qed.

Lemma pack_float32_rescaled s m e k :
  bounded 24 128 m e = true ->
  pack_float32 (S754_finite s (Pos.shiftl m k) (e - Z.of_N k))
  = Ok (le_bytes 4 (bits_of_float32 (S754_finite s m e))).
Proof.
  intros Hb. unfold pack_float32. cbn [float32_of_float].
  rewrite (binary_round_rescaled _ _ _ _ Hb). reflexivity.
Qed.

(** A nonzero int below [2^24] in magnitude, with sign [s] and magnitude
    [m], is packed as the binary32 number [(m * 2^j) * 2^-j]. *)
Lemma pack_small_int s m :
  Z.pos m < 2 ^ 24 ->
  exists j : N,
    bounded 24 128 (Pos.shiftl m j) (- Z.of_N j) = true /\
    pack_float32 (binary_round 53 1024 s m 0)
    = Ok (le_bytes 4 (bits_of_float32
                        (S754_finite s (Pos.shiftl m j) (- Z.of_N j)))).
Proof.
  intros Hm. pose proof (digits2_pos_bounds m) as Hd.
  assert (Hd24 : 1 <= Z.pos (digits2_pos m) <= 24).
  { split; [lia|].
    destruct (Z.le_gt_cases (Z.pos (digits2_pos m)) 24) as [|Hgt]; [assumption|].
    assert (2 ^ 24 <= 2 ^ (Z.pos (digits2_pos m) - 1))
      by (apply Z.pow_le_mono_r; lia).
    lia. }
  destruct (binary_round_small_int s m) as (k & -> & Hk); [lia|].
  set (j := Z.to_N (24 - Z.pos (digits2_pos m))).
  assert (Hj : Z.of_N j = 24 - Z.pos (digits2_pos m)) by (subst j; lia).
  assert (Hb : bounded 24 128 (Pos.shiftl m j) (- Z.of_N j) = true).
  { unfold bounded, canonical_mantissa. rewrite digits2_pos_shiftl.
    apply andb_true_intro. split.
    - apply Z.eqb_eq. unfold fexp, emin. lia.
    - apply Z.leb_le. lia. }
  exists j. split; [exact Hb|].
  replace k with (j + (k - j))%N by lia.
  rewrite <- shiftl_shiftl.
  replace (- Z.of_N (j + (k - j))) with (- Z.of_N j - Z.of_N (k - j)) by lia.
  apply pack_float32_rescaled. exact Hb.
Qed.

(** X13: an int coordinate [n] with [-2^24 < n < 2^24] is never refused
    and is stored exactly: its four bytes read back as zero for [n = 0]
    and otherwise as the binary32 number with the sign of [n] and the
    value [(|n| * 2^j) * 2^-j]. *)
Theorem small_int_coordinate_exact n :
  - 2 ^ 24 < n < 2 ^ 24 ->
  exists b,
    pack_f (PyInt n) = Ok b /\ length b = 4%nat /\
    exists y,
      float32_of_bits (from_bytes_little b) = y /\
      valid_binary 24 128 y = true /\
      match n with
      | 0 => y = S754_zero false
      | Z.pos m => exists j : N,
          y = S754_finite false (Pos.shiftl m j) (- Z.of_N j)
      | Z.neg m => exists j : N,
          y = S754_finite true (Pos.shiftl m j) (- Z.of_N j)
      end.
Proof.
  intros Hn. unfold pack_f, as_double, float_of_int.
  destruct n as [|m|m].
  - eexists. split; [reflexivity|]. split; [reflexivity|].
    exists (S754_zero false). repeat split; reflexivity.
  - cbn [binary_normalize].
    destruct (binary_round_small_int false m) as (k & Hk & _); [lia|].
    destruct (pack_small_int false m) as (j & Hb & Hp); [lia|].
    rewrite Hk in *. cbn [is_inf rbind]. rewrite Hp.
    eexists. split; [reflexivity|]. split; [apply length_le_bytes|].
    set (y := S754_finite false (Pos.shiftl m j) (- Z.of_N j)) in *.
    destruct (float32_of_bits_of_float32 y Hb) as [Hr Hd].
    exists y. rewrite from_bytes_le_bytes_4 by assumption.
    split; [exact Hd|]. split; [exact Hb|]. exists j. reflexivity.
  - cbn [binary_normalize].
    destruct (binary_round_small_int true m) as (k & Hk & _); [lia|].
    destruct (pack_small_int true m) as (j & Hb & Hp); [lia|].
    rewrite Hk in *. cbn [is_inf rbind]. rewrite Hp.
    eexists. split; [reflexivity|]. split; [apply length_le_bytes|].
    set (y := S754_finite true (Pos.shiftl m j) (- Z.of_N j)) in *.
    destruct (float32_of_bits_of_float32 y Hb) as [Hr Hd].
    exists y. rewrite from_bytes_le_bytes_4 by assumption.
    split; [exact Hd|]. split; [exact Hb|]. exists j. reflexivity.
Qed.

Lemma small_int_coordinate_exact_witness :
  exists b,
    pack_f (PyInt 100) = Ok b /\ length b = 4%nat /\
    exists y,
      float32_of_bits (from_bytes_little b) = y /\
      valid_binary 24 128 y = true /\
      exists j : N, y = S754_finite false (Pos.shiftl 100 j) (- Z.of_N j).
Proof.
  apply (small_int_coordinate_exact 100). lia.
Defined.

(** * The order of the checks *)

(** X14: the obstacles are met in a fixed order, and the earlier ones
    protect the destination.  A Track with more than 65535 nodes is refused
    before [open] is tried, whatever the path.  Otherwise, when [open]
    raises, its exception is the call's and nothing has changed, whatever
    the name and the nodes.  Otherwise, when the name has a surrogate, the
    body of the [with] block ends before its first write: the call raises
    [UnicodeEncodeError] and the opened file is left empty, provided that
    closing the empty file does not fail.  And a call that returns normally
    has passed the limit, opened the destination, encoded the name and
    packed every node. *)
Theorem write_trk_error_order env t fn fs :
  let run := write_trk_io env fn (mkWorld t fs) in
  (len (nodes t) > MAX_NODES ->
     run = (Raise (ValueError too_many_nodes), mkWorld t fs)) /\
  (len (nodes t) <= MAX_NODES ->
     forall e, open_outcome env fn = Some e -> run = (Raise e, mkWorld t fs)) /\
  (len (nodes t) <= MAX_NODES -> open_outcome env fn = None ->
     ~ encodable (name t) ->
     write_fault env (resolve env fn) [] = None ->
     run = (Raise UnicodeEncodeError,
            mkWorld t (<[resolve env fn := []]> fs))) /\
  (run.1 = Ok tt ->
     len (nodes t) <= MAX_NODES /\ open_outcome env fn = None /\
     encodable (name t) /\ Forall packable (nodes t)).
Proof.
  cbv zeta.
  destruct (Z.gtb_spec (len (nodes t)) MAX_NODES) as [Hgt|Hle].
  - rewrite write_trk_io_run.
    destruct (Z.gtb_spec (len (nodes t)) MAX_NODES) as [_|]; [|lia].
    split; [reflexivity|]. split; [lia|]. split; [lia|].
    cbn [fst]. discriminate.
  - split; [lia|]. split.
    { intros _ e Ho. rewrite write_trk_io_run, Ho.
      destruct (Z.gtb_spec (len (nodes t)) MAX_NODES); [lia|reflexivity]. }
    split.
    + intros _ Ho He Hw. rewrite (write_trk_io_accepted _ _ _ _ Hle Ho).
      unfold trk_result, trk_file. rewrite (not_encodable_raises _ He).
      cbn [fst snd]. rewrite Hw. reflexivity.
    + destruct (write_trk_io env fn (mkWorld t fs)) as [r w'] eqn:E.
      cbn [fst]. intros ->.
      destruct (write_trk_io_returns _ _ _ _ _ E)
        as (Hn & Ho & Hp & b & Hb & _).
      repeat split; try assumption.
      apply encodable_iff. rewrite Hb. reflexivity.
Qed.

Lemma write_trk_error_order_witness :
  write_trk_io small_os dot_out_trk (mkWorld lone_surrogate_track used_files)
  = (Raise UnicodeEncodeError,
     mkWorld lone_surrogate_track
       (<[resolve small_os dot_out_trk := []]> used_files)).
Proof.
  destruct (write_trk_error_order small_os lone_surrogate_track dot_out_trk
              used_files) as (_ & _ & H & _).
  apply H.
  - vm_compute. discriminate.
  - reflexivity.
  - intros He. vm_compute in He. discriminate He.
  - reflexivity.
Defined.
